(** * Media Stacks: search endpoints and favourites store

    A shallow embedding of [src/client/app.js]: the browser client
    (favourites kept in [localStorage], lines 1-204) and the Express server
    (the three search endpoints, lines 205-381), together with the part of
    the JavaScript runtime both rely on (JSON values, property reads,
    truthiness, [String(...)], [JSON.parse] and [JSON.stringify]). *)

From stdpp Require Import gmap strings.
From Stdlib Require Import ZArith String Ascii Bool Lia.
From Stdlib Require Import DecimalString DecimalZ DecimalPos DecimalFacts.

(** ** The JavaScript values the program handles *)

Module JS.

(** Exceptions.  [Error] is the one the program raises itself
    ([throw new Error(...)]); the other three are raised by the runtime
    (a property read on [null], a call of something that is not a function,
    [JSON.parse] on malformed text, a rejected [fetch]) and their message is
    the engine's, so it is kept symbolic. *)
Inductive exn : Type :=
  | Error (message : string)
  | TypeError
  | SyntaxError
  | FetchFailed.

(** The outcome of evaluating an expression: a value or a thrown exception. *)
Inductive completion (A : Type) : Type :=
  | Normal (a : A)
  | Throw (e : exn).
Arguments Normal {A} a.
Arguments Throw {A} e.

Definition bind {A B} (c : completion A) (k : A -> completion B) : completion B :=
  match c with
  | Normal a => k a
  | Throw e => Throw e
  end.

(** [try { c } catch { h }] *)
Definition try_catch {A} (c : completion A) (h : exn -> A) : A :=
  match c with
  | Normal a => a
  | Throw e => h e
  end.

(** JSON data.  Numbers are the integers (identifiers and years are integral
    in the three catalogues); strings are sequences of 8-bit code units.  An
    object is the list of its members in the order they were written; a
    property read takes the last member with the given name, which is the
    one [JSON.parse] keeps when a name is repeated.  [undefined] is not a
    JSON value: an expression that may be [undefined] has type
    [option value]. *)
#[local] Unset Elimination Schemes.
Inductive value : Type :=
  | JNull
  | JBool (b : bool)
  | JNum (n : Z)
  | JStr (s : string)
  | JArr (elements : list value)
  | JObj (members : list (string * value)).
#[local] Set Elimination Schemes.

(** Own data property [name] of an object, [None] when there is none. *)
Fixpoint own (members : list (string * value)) (name : string) : option value :=
  match members with
  | [] => None
  | (k, v) :: rest =>
      match own rest name with
      | Some w => Some w
      | None => if String.eqb k name then Some v else None
      end
  end.

(** [o.name] for a name that no built-in prototype defines (every name the
    program reads except [length], see [length_of]): a [TypeError] on
    [null], the own property on an object, [undefined] on anything else. *)
Definition get (o : value) (name : string) : completion (option value) :=
  match o with
  | JNull => Throw TypeError
  | JObj members => Normal (own members name)
  | _ => Normal None
  end.

(** [o?.name], which cannot throw. *)
Definition get_chain (o : option value) (name : string) : option value :=
  match o with
  | Some (JObj members) => own members name
  | _ => None
  end.

(** Truthiness ([ToBoolean]). *)
Definition truthy (o : option value) : bool :=
  match o with
  | None | Some JNull => false
  | Some (JBool b) => b
  | Some (JNum n) => negb (Z.eqb n 0)
  | Some (JStr s) => negb (String.eqb s "")
  | Some (JArr _) | Some (JObj _) => true
  end.

(** [a || b] with a defined right operand. *)
Definition or_else (a : option value) (b : value) : value :=
  match a with
  | Some v => if truthy a then v else b
  | None => b
  end.

(** [a || b] where the right operand may be [undefined] too. *)
Definition or_opt (a b : option value) : option value :=
  if truthy a then a else b.

Definition Array_isArray (o : option value) : bool :=
  match o with
  | Some (JArr _) => true
  | _ => false
  end.

(** [Number.prototype.toString]: the decimal numeral. *)
Definition Number_toString (n : Z) : string :=
  NilZero.string_of_int (Z.to_int n).

(** [ToString] on a JSON value.  An array is joined with commas, [null]
    elements giving the empty string.  An object has no callable method of
    its own, so it prints as [[object Object]] through [Object.prototype],
    unless an own member named [toString] shadows that method, in which
    case the conversion finds nothing to call and raises a [TypeError]. *)
Fixpoint ToString (v : value) : completion string :=
  match v with
  | JNull => Normal "null"
  | JBool b => Normal (if b then "true" else "false")
  | JNum n => Normal (Number_toString n)
  | JStr s => Normal s
  | JArr elements =>
      (fix join (l : list value) : completion string :=
         match l with
         | [] => Normal ""
         | x :: l' =>
             bind (match x with JNull => Normal "" | _ => ToString x end) (fun sx =>
             match l' with
             | [] => Normal sx
             | _ :: _ => bind (join l') (fun rest => Normal (sx +:+ "," +:+ rest))
             end)
         end) elements
  | JObj members =>
      match own members "toString" with
      | Some _ => Throw TypeError
      | None => Normal "[object Object]"
      end
  end.

(** [String(x)] and [`${x}`], where [x] may be [undefined]. *)
Definition String_ (o : option value) : completion string :=
  match o with
  | None => Normal "undefined"
  | Some v => ToString v
  end.

(** [Array.prototype.join(sep)] *)
Fixpoint Array_join (sep : string) (l : list value) : completion string :=
  match l with
  | [] => Normal ""
  | x :: l' =>
      bind (match x with JNull => Normal "" | _ => ToString x end) (fun sx =>
      match l' with
      | [] => Normal sx
      | _ :: _ => bind (Array_join sep l') (fun rest => Normal (sx +:+ sep +:+ rest))
      end)
  end.

(** [String.prototype.slice(0, n)] and [Array.prototype.slice(0, n)] *)
Fixpoint String_slice0 (n : nat) (s : string) : string :=
  match n, s with
  | S m, String c r => String c (String_slice0 m r)
  | _, _ => ""
  end.

Definition Array_slice0 {A} (n : nat) (l : list A) : list A := firstn n l.

(** White space and line terminators among the 8-bit code units: TAB, LF,
    VT, FF, CR, SP and NBSP. *)
Definition is_space (c : ascii) : bool :=
  let n := nat_of_ascii c in
  ((9 <=? n) && (n <=? 13)) || (n =? 32) || (n =? 160).

Fixpoint trim_start (s : string) : string :=
  match s with
  | String c r => if is_space c then trim_start r else s
  | EmptyString => ""
  end.

(** Drops the trailing white space: a character is kept when something
    after it is kept or when it is not white space itself. *)
Fixpoint trim_end (s : string) : string :=
  match s with
  | String c r =>
      match trim_end r with
      | EmptyString => if is_space c then "" else String c ""
      | r' => String c r'
      end
  | EmptyString => ""
  end.

(** [String.prototype.trim] *)
Definition trim (s : string) : string := trim_end (trim_start s).

(** [String.prototype.replaceAll] for a one-character pattern. *)
Fixpoint replaceAll (pattern : ascii) (replacement : string) (s : string) : string :=
  match s with
  | String c r =>
      if Ascii.eqb c pattern
      then replacement +:+ replaceAll pattern replacement r
      else String c (replaceAll pattern replacement r)
  | EmptyString => ""
  end.

End JS.

Notation "'let!' x ':=' c 'in' k" := (JS.bind c (fun x => k))
  (at level 10, x name, c at level 100, k at level 200).

(** ** [JSON.stringify] and [JSON.parse] *)

Module JSON.
Import JS.

Definition DQUOTE : ascii := "034"%char.
Definition BACKSLASH : ascii := "092"%char.

Definition hex_digit (n : nat) : ascii :=
  if n <? 10 then ascii_of_nat (48 + n) else ascii_of_nat (87 + n).

(** One character of a string literal, escaped as [JSON.stringify] does:
    the quote, the backslash and the control characters. *)
Definition emit_char (c : ascii) (k : string) : string :=
  let n := nat_of_ascii c in
  if Ascii.eqb c DQUOTE then String BACKSLASH (String DQUOTE k)
  else if Ascii.eqb c BACKSLASH then String BACKSLASH (String BACKSLASH k)
  else if n =? 8 then String BACKSLASH (String "b" k)
  else if n =? 9 then String BACKSLASH (String "t" k)
  else if n =? 10 then String BACKSLASH (String "n" k)
  else if n =? 12 then String BACKSLASH (String "f" k)
  else if n =? 13 then String BACKSLASH (String "r" k)
  else if n <? 32 then
    String BACKSLASH (String "u" (String "0" (String "0"
      (String (hex_digit (n / 16)) (String (hex_digit (n mod 16)) k)))))
  else String c k.

Fixpoint emit_chars (s : string) (k : string) : string :=
  match s with
  | String c r => emit_char c (emit_chars r k)
  | EmptyString => String DQUOTE k
  end.

Definition emit_string (s : string) (k : string) : string :=
  String DQUOTE (emit_chars s k).

(** [emit v k] is the JSON text of [v] followed by [k]. *)
Fixpoint emit (v : value) (k : string) : string :=
  match v with
  | JNull => "null" +:+ k
  | JBool true => "true" +:+ k
  | JBool false => "false" +:+ k
  | JNum n => Number_toString n +:+ k
  | JStr s => emit_string s k
  | JArr elements =>
      String "["
        match elements with
        | [] => String "]" k
        | x :: l =>
            emit x
              ((fix tail (l : list value) : string :=
                  match l with
                  | [] => String "]" k
                  | y :: l' => String "," (emit y (tail l'))
                  end) l)
        end
  | JObj members =>
      String "{"
        match members with
        | [] => String "}" k
        | (name, x) :: l =>
            emit_string name (String ":" (emit x
              ((fix tail (l : list (string * value)) : string :=
                  match l with
                  | [] => String "}" k
                  | (name', y) :: l' =>
                      String "," (emit_string name' (String ":" (emit y (tail l'))))
                  end) l)))
        end
  end.

Definition stringify (v : value) : string := emit v "".

(** The parser: recursive descent over the text, with the nesting bounded
    by the length of the text.  It covers the JSON grammar except for
    numerals with a fraction or an exponent and for [\u] escapes above
    [00ff], which have no counterpart among the values above and are
    refused. *)

Definition is_ws (c : ascii) : bool :=
  let n := nat_of_ascii c in
  (n =? 32) || (n =? 9) || (n =? 10) || (n =? 13).

Fixpoint skip_ws (s : string) : string :=
  match s with
  | String c r => if is_ws c then skip_ws r else s
  | EmptyString => ""
  end.

Definition is_digit (c : ascii) : bool :=
  let n := nat_of_ascii c in
  (48 <=? n) && (n <=? 57).

Definition hex_value (c : ascii) : option nat :=
  let n := nat_of_ascii c in
  if (48 <=? n) && (n <=? 57) then Some (n - 48)
  else if (97 <=? n) && (n <=? 102) then Some (n - 87)
  else if (65 <=? n) && (n <=? 70) then Some (n - 55)
  else None.

Definition unescape (c : ascii) : option ascii :=
  if Ascii.eqb c DQUOTE then Some DQUOTE
  else if Ascii.eqb c BACKSLASH then Some BACKSLASH
  else if Ascii.eqb c "/" then Some "/"%char
  else if Ascii.eqb c "b" then Some (ascii_of_nat 8)
  else if Ascii.eqb c "t" then Some (ascii_of_nat 9)
  else if Ascii.eqb c "n" then Some (ascii_of_nat 10)
  else if Ascii.eqb c "f" then Some (ascii_of_nat 12)
  else if Ascii.eqb c "r" then Some (ascii_of_nat 13)
  else None.

Definition push (c : ascii) (p : option (string * string)) : option (string * string) :=
  match p with
  | Some (s, rest) => Some (String c s, rest)
  | None => None
  end.

(** The characters of a string literal after its opening quote. *)
Fixpoint parse_chars (s : string) : option (string * string) :=
  match s with
  | EmptyString => None
  | String c r =>
      if Ascii.eqb c DQUOTE then Some ("", r)
      else if Ascii.eqb c BACKSLASH then
        match r with
        | EmptyString => None
        | String e r1 =>
            if Ascii.eqb e "u" then
              match r1 with
              | String h1 (String h2 (String h3 (String h4 r2))) =>
                  match hex_value h1, hex_value h2, hex_value h3, hex_value h4 with
                  | Some 0, Some 0, Some a, Some b =>
                      push (ascii_of_nat (16 * a + b)) (parse_chars r2)
                  | _, _, _, _ => None
                  end
              | _ => None
              end
            else
              match unescape e with
              | Some c' => push c' (parse_chars r1)
              | None => None
              end
        end
      else if nat_of_ascii c <? 32 then None
      else push c (parse_chars r)
  end.

Definition parse_string (s : string) : option (string * string) :=
  match s with
  | String c r => if Ascii.eqb c DQUOTE then parse_chars r else None
  | EmptyString => None
  end.

Fixpoint span_digits (s : string) : string * string :=
  match s with
  | String c r =>
      if is_digit c
      then let (ds, rest) := span_digits r in (String c ds, rest)
      else ("", s)
  | EmptyString => ("", "")
  end.

(** What may not follow the digits of an integer numeral. *)
Definition continues_number (s : string) : bool :=
  match s with
  | String c _ => Ascii.eqb c "." || Ascii.eqb c "e" || Ascii.eqb c "E"
  | EmptyString => false
  end.

Definition parse_unsigned (s : string) : option (Z * string) :=
  let (ds, rest) := span_digits s in
  match ds with
  | EmptyString => None
  | String d ds' =>
      if Ascii.eqb d "0" && negb (String.eqb ds' "") then None
      else if continues_number rest then None
      else
        match NilZero.uint_of_string ds with
        | Some u => Some (Z.of_uint u, rest)
        | None => None
        end
  end.

Definition parse_number (s : string) : option (Z * string) :=
  match s with
  | String c r =>
      if Ascii.eqb c "-" then
        match parse_unsigned r with
        | Some (n, rest) => Some (Z.opp n, rest)
        | None => None
        end
      else parse_unsigned s
  | EmptyString => None
  end.

Fixpoint strip_prefix (p s : string) : option string :=
  match p, s with
  | EmptyString, _ => Some s
  | String a p', String b s' => if Ascii.eqb a b then strip_prefix p' s' else None
  | String _ _, EmptyString => None
  end.

Definition literal (word : string) (v : value) (s : string) : option (value * string) :=
  match strip_prefix word s with
  | Some rest => Some (v, rest)
  | None => None
  end.

Fixpoint parse_value (fuel : nat) (s : string) : option (value * string) :=
  match fuel with
  | O => None
  | S f =>
      match skip_ws s with
      | EmptyString => None
      | String c r =>
          if Ascii.eqb c "[" then
            match skip_ws r with
            | EmptyString => None
            | String c' r' =>
                if Ascii.eqb c' "]" then Some (JArr [], r')
                else
                  match parse_value f (String c' r') with
                  | Some (x, r1) =>
                      match parse_elements f r1 with
                      | Some (l, r2) => Some (JArr (x :: l), r2)
                      | None => None
                      end
                  | None => None
                  end
            end
          else if Ascii.eqb c "{" then
            match skip_ws r with
            | EmptyString => None
            | String c' r' =>
                if Ascii.eqb c' "}" then Some (JObj [], r')
                else
                  match parse_member f (String c' r') with
                  | Some (m, r1) =>
                      match parse_members f r1 with
                      | Some (l, r2) => Some (JObj (m :: l), r2)
                      | None => None
                      end
                  | None => None
                  end
            end
          else if Ascii.eqb c DQUOTE then
            match parse_chars r with
            | Some (str, rest) => Some (JStr str, rest)
            | None => None
            end
          else if Ascii.eqb c "t" then literal "rue" (JBool true) r
          else if Ascii.eqb c "f" then literal "alse" (JBool false) r
          else if Ascii.eqb c "n" then literal "ull" JNull r
          else
            match parse_number (String c r) with
            | Some (n, rest) => Some (JNum n, rest)
            | None => None
            end
      end
  end

(** What follows an element of an array: [,] and another element, or [[]]. *)
with parse_elements (fuel : nat) (s : string) : option (list value * string) :=
  match fuel with
  | O => None
  | S f =>
      match skip_ws s with
      | EmptyString => None
      | String c r =>
          if Ascii.eqb c "]" then Some ([], r)
          else if Ascii.eqb c "," then
            match parse_value f r with
            | Some (x, r1) =>
                match parse_elements f r1 with
                | Some (l, r2) => Some (x :: l, r2)
                | None => None
                end
            | None => None
            end
          else None
      end
  end

(** One member of an object: a string, [:] and a value. *)
with parse_member (fuel : nat) (s : string) : option ((string * value) * string) :=
  match fuel with
  | O => None
  | S f =>
      match parse_string (skip_ws s) with
      | Some (name, r) =>
          match skip_ws r with
          | EmptyString => None
          | String c r1 =>
              if Ascii.eqb c ":" then
                match parse_value f r1 with
                | Some (x, r2) => Some ((name, x), r2)
                | None => None
                end
              else None
          end
      | None => None
      end
  end

with parse_members (fuel : nat) (s : string) : option (list (string * value) * string) :=
  match fuel with
  | O => None
  | S f =>
      match skip_ws s with
      | EmptyString => None
      | String c r =>
          if Ascii.eqb c "}" then Some ([], r)
          else if Ascii.eqb c "," then
            match parse_member f r with
            | Some (m, r1) =>
                match parse_members f r1 with
                | Some (l, r2) => Some (m :: l, r2)
                | None => None
                end
            | None => None
            end
          else None
      end
  end.

(** [JSON.parse]: [None] stands for the [SyntaxError]. *)
Definition parse (s : string) : option value :=
  match parse_value (String.length s) s with
  | Some (v, rest) =>
      match skip_ws rest with
      | EmptyString => Some v
      | String _ _ => None
      end
  | None => None
  end.

(** *** Measures used to reason about the parser *)

(** What may follow a numeral without being read into it. *)
Definition ends_number (k : string) : bool :=
  match k with
  | String c _ => negb (is_digit c) && negb (continues_number k)
  | EmptyString => true
  end.

(** What follows a value inside a text produced by [emit]. *)
Definition delimited (k : string) : bool :=
  match k with
  | String c _ => Ascii.eqb c "," || Ascii.eqb c "]" || Ascii.eqb c "}"
  | EmptyString => true
  end.

Definition starts_value (s : string) : bool :=
  match s with
  | String c _ =>
      Ascii.eqb c "[" || Ascii.eqb c "{" || Ascii.eqb c DQUOTE || Ascii.eqb c "t"
      || Ascii.eqb c "f" || Ascii.eqb c "n" || Ascii.eqb c "-" || is_digit c
  | EmptyString => false
  end.

Definition nzfirst (d : Decimal.uint) : bool :=
  match d with
  | Decimal.Nil | Decimal.D0 _ => false
  | _ => true
  end.

(** The text [emit] writes after the first element of an array, and after
    the first member of an object. *)
Definition emit_elements (l : list value) (k : string) : string :=
  (fix tail (l : list value) : string :=
     match l with
     | [] => String "]" k
     | y :: l' => String "," (emit y (tail l'))
     end) l.

Definition emit_members (l : list (string * value)) (k : string) : string :=
  (fix tail (l : list (string * value)) : string :=
     match l with
     | [] => String "}" k
     | (name', y) :: l' =>
         String "," (emit_string name' (String ":" (emit y (tail l'))))
     end) l.

(** The nesting [parse_value] needs to read a value back: never more than
    the length of its text. *)
Fixpoint size (v : value) : nat :=
  match v with
  | JArr l =>
      S match l with
        | [] => 0
        | x :: l' =>
            size x + (fix go (l : list value) : nat :=
                        match l with [] => 1 | y :: l'' => S (size y + go l'') end) l'
        end
  | JObj m =>
      S match m with
        | [] => 0
        | (_, x) :: m' =>
            S (size x) + (fix go (m : list (string * value)) : nat :=
                            match m with
                            | [] => 1
                            | (_, y) :: m'' => S (S (size y) + go m'')
                            end) m'
        end
  | _ => 1
  end.

Definition size_elements (l : list value) : nat :=
  (fix go (l : list value) : nat :=
     match l with [] => 1 | y :: l'' => S (size y + go l'') end) l.

Definition size_members (m : list (string * value)) : nat :=
  (fix go (m : list (string * value)) : nat :=
     match m with [] => 1 | (_, y) :: m'' => S (S (size y) + go m'') end) m.

End JSON.


(** ** The client: favourites in [localStorage] (lines 1-204) *)

Module Client.
Import JS.

Definition STORAGE_KEY : string := "mediaStacks.favorites.v1".

(** What the favourites code reads and writes of the page: the origin's
    [localStorage] and the text of the status line ([els.status]).  The
    cards that [renderFavorites] writes into the profile view are markup
    derived from the store; they are what [renderFavorites] returns below
    and are not kept in the state. *)
Record Page : Type := {
  localStorage : gmap string string;
  status : string
}.

(** The object [{ movie: [...], book: [...], album: [...] }]. *)
Record Favorites : Type := {
  movie : list value;
  book : list value;
  album : list value
}.

Definition no_favorites : Favorites := {| movie := []; book := []; album := [] |}.

Definition JSON_parse (text : string) : completion value :=
  match JSON.parse text with
  | Some v => Normal v
  | None => Throw SyntaxError
  end.

(** [Array.isArray(x) ? x : []] *)
Definition array_or_empty (x : option value) : list value :=
  match x with
  | Some (JArr l) => l
  | _ => []
  end.

Definition loadFavorites (store : gmap string string) : Favorites :=
  match store !! STORAGE_KEY with
  | None => no_favorites
  | Some raw =>
      if String.eqb raw "" then no_favorites
      else
        try_catch
          (let! parsed := JSON_parse raw in
           let! m := get parsed "movie" in
           let! b := get parsed "book" in
           let! a := get parsed "album" in
           Normal {| movie := array_or_empty m;
                     book := array_or_empty b;
                     album := array_or_empty a |})
          (fun _ => no_favorites)
  end.

Definition to_value (favs : Favorites) : value :=
  JObj [("movie", JArr (movie favs)); ("book", JArr (book favs));
        ("album", JArr (album favs))].

Definition saveFavorites (favs : Favorites) (store : gmap string string)
  : gmap string string :=
  <[STORAGE_KEY := JSON.stringify (to_value favs)]> store.

(** [els.status.textContent = msg || ""] *)
Definition setStatus (msg : string) (p : Page) : Page :=
  {| localStorage := localStorage p; status := msg |}.

Definition mapCategoryToFavType (category : string) : string :=
  if String.eqb category "movies" then "movie"
  else if String.eqb category "books" then "book"
  else "album".

(** The path of the URL that [runSearch] requests (line 104). *)
Definition search_path (category : string) : string :=
  "/api/search/" +:+ category.

(** [favs[key]] as the receiver of an array method: one of the three lists,
    and nothing usable for any other key. *)
Definition index (favs : Favorites) (key : string) : option (list value) :=
  if String.eqb key "movie" then Some (movie favs)
  else if String.eqb key "book" then Some (book favs)
  else if String.eqb key "album" then Some (album favs)
  else None.

(** [favs[key] = l] for one of the three keys. *)
Definition assign (favs : Favorites) (key : string) (l : list value) : Favorites :=
  if String.eqb key "movie" then {| movie := l; book := book favs; album := album favs |}
  else if String.eqb key "book" then {| movie := movie favs; book := l; album := album favs |}
  else if String.eqb key "album" then {| movie := movie favs; book := book favs; album := l |}
  else favs.

(** [Array.prototype.some] and [Array.prototype.filter] with a callback that
    may throw. *)
Fixpoint Array_some (f : value -> completion bool) (l : list value) : completion bool :=
  match l with
  | [] => Normal false
  | x :: l' => let! b := f x in if b then Normal true else Array_some f l'
  end.

Fixpoint Array_filter (f : value -> completion bool) (l : list value)
  : completion (list value) :=
  match l with
  | [] => Normal []
  | x :: l' =>
      let! b := f x in
      let! r := Array_filter f l' in
      Normal (if b then x :: r else r)
  end.

(** [String(x.id)] *)
Definition id_text (x : value) : completion string :=
  let! xid := get x "id" in String_ xid.

(** [String(x.id) === other], the right operand being evaluated after the
    left one. *)
Definition same_id (other : completion string) (x : value) : completion bool :=
  let! a := id_text x in
  let! b := other in
  Normal (String.eqb a b).

(** [const key = item.type], as the property name [favs[key]] makes of it. *)
Definition type_key (item : value) : completion string :=
  let! type := get item "type" in String_ type.

(** [addFavorite(item)].  A [Throw] is an exception that leaves the
    function: nothing has been written when it is raised. *)
Definition addFavorite (item : value) (p : Page) : completion Page :=
  let favs := loadFavorites (localStorage p) in
  let! key := type_key item in
  match index favs key with
  | None => Throw TypeError
  | Some l =>
      let! dup := Array_some (same_id (id_text item)) l in
      if dup then Normal (setStatus "Already in favorites." p)
      else if 5 <=? List.length l then
        Normal (setStatus ("You already have 5 " +:+ key +:+ "s. Remove one first.") p)
      else
        let favs' := assign favs key (l ++ [item]) in
        Normal (setStatus ("Added to " +:+ key +:+ " favorites.")
                  {| localStorage := saveFavorites favs' (localStorage p);
                     status := status p |})
  end.

(** The callback of [filter] in [removeFavorite]:
    [String(x.id) !== String(id)]. *)
Definition other_id (id : value) (x : value) : completion bool :=
  let! b := same_id (String_ (Some id)) x in Normal (negb b).

(** [escapeHtml(str)], lines 77-84: [String(str)] and then the five
    replacements, in the order of the source. *)
Definition escapeHtml (str : option value) : completion string :=
  let! s := String_ str in
  Normal (replaceAll "'" "&#039;"
           (replaceAll JSON.DQUOTE "&quot;"
             (replaceAll ">" "&gt;"
               (replaceAll "<" "&lt;"
                 (replaceAll "&" "&amp;" s))))).

(** A string between double quotes, as an attribute value is written. *)
Definition quoted (s : string) : string :=
  String JSON.DQUOTE (s +:+ String JSON.DQUOTE "").

Definition newline : string := String "010" "".

(** [cardTemplate(item, { showAdd, showRemove })], lines 57-75. *)
Definition cardTemplate (item : value) (showAdd showRemove : bool) : completion string :=
  let! image := get item "image" in
  let! img :=
    if truthy image then
      let! src := String_ image in
      Normal ("<img src=" +:+ quoted src +:+ " alt=" +:+ quoted "" +:+ ">")
    else
      Normal ("<div class=" +:+ quoted "muted" +:+ " style="
              +:+ quoted "padding:10px;text-align:center;" +:+ ">No image</div>") in
  let! item_title := get item "title" in
  let! title := escapeHtml item_title in
  let! item_subtitle := get item "subtitle" in
  let! sub := escapeHtml (Some (or_else item_subtitle (JStr ""))) in
  let! add :=
    if showAdd then
      let! item_type := get item "type" in
      let! type := String_ item_type in
      let! item_id := get item "id" in
      let! id := String_ item_id in
      Normal ("<button data-action=" +:+ quoted "add" +:+ " data-type=" +:+ quoted type
              +:+ " data-id=" +:+ quoted id +:+ ">Add to Favorites</button>")
    else Normal "" in
  let! remove :=
    if showRemove then
      let! item_type := get item "type" in
      let! type := String_ item_type in
      let! item_id := get item "id" in
      let! id := String_ item_id in
      Normal ("<button class=" +:+ quoted "danger" +:+ " data-action=" +:+ quoted "remove"
              +:+ " data-type=" +:+ quoted type
              +:+ " data-id=" +:+ quoted id +:+ ">Remove</button>")
    else Normal "" in
  Normal (newline
    +:+ "    <article class=" +:+ quoted "item" +:+ ">" +:+ newline
    +:+ "      <div class=" +:+ quoted "thumb" +:+ ">" +:+ img +:+ "</div>" +:+ newline
    +:+ "      <div class=" +:+ quoted "content" +:+ ">" +:+ newline
    +:+ "        <div class=" +:+ quoted "title" +:+ ">" +:+ title +:+ "</div>" +:+ newline
    +:+ "        <div class=" +:+ quoted "sub" +:+ ">" +:+ sub +:+ "</div>" +:+ newline
    +:+ "        <div class=" +:+ quoted "actions" +:+ ">" +:+ newline
    +:+ "          " +:+ add +:+ newline
    +:+ "          " +:+ remove +:+ newline
    +:+ "        </div>" +:+ newline
    +:+ "      </div>" +:+ newline
    +:+ "    </article>" +:+ newline
    +:+ "  ").

(** [l.map((item) => cardTemplate(item, { showAdd: false, showRemove: true }))
    .join("")] *)
Fixpoint favorite_cards (l : list value) : completion string :=
  match l with
  | [] => Normal ""
  | item :: l' =>
      let! card := cardTemplate item false true in
      let! cards := favorite_cards l' in
      Normal (card +:+ cards)
  end.

(** [cards || `<p class="muted">No ... favorites yet.</p>`] *)
Definition or_placeholder (cards : string) (kind : string) : string :=
  if String.eqb cards ""
  then "<p class=" +:+ quoted "muted" +:+ ">No " +:+ kind +:+ " favorites yet.</p>"
  else cards.

(** What [renderFavorites] writes into the three lists of the profile
    view. *)
Record Rendered : Type := {
  favMovie : string;
  favBook : string;
  favAlbum : string
}.

(** [renderFavorites()], lines 176-190. *)
Definition renderFavorites (store : gmap string string) : completion Rendered :=
  let favs := loadFavorites store in
  let! movies := favorite_cards (movie favs) in
  let! books := favorite_cards (book favs) in
  let! albums := favorite_cards (album favs) in
  Normal {| favMovie := or_placeholder movies "movie";
            favBook := or_placeholder books "book";
            favAlbum := or_placeholder albums "album" |}.

(** [removeFavorite(type, id)], called with the [data-type] and [data-id]
    of the button that was clicked: the page it leaves, and the markup it
    renders or the exception it raises.  An exception raised before the
    save leaves the page as it was; one raised by the rendering comes
    after the save. *)
Definition removeFavorite (type : string) (id : value) (p : Page)
  : Page * completion Rendered :=
  let favs := loadFavorites (localStorage p) in
  match index favs type with
  | None => (p, Throw TypeError)
  | Some l =>
      match Array_filter (other_id id) l with
      | Throw e => (p, Throw e)
      | Normal l' =>
          let p' := {| localStorage := saveFavorites (assign favs type l') (localStorage p);
                       status := status p |} in
          (p', renderFavorites (localStorage p'))
      end
  end.

(** The click handler of [btnClear]; its rendering finds the store empty
    and cannot raise. *)
Definition clearFavorites (p : Page) : Page :=
  {| localStorage := delete STORAGE_KEY (localStorage p); status := status p |}.

(** The user's actions on the favourites, and the page after each,
    whether the handler returned or raised. *)
Inductive action : Type :=
  | Add (item : value)
  | Remove (type : string) (id : value)
  | Clear.

Definition step (p : Page) (a : action) : Page :=
  match a with
  | Add item => try_catch (addFavorite item p) (fun _ => p)
  | Remove type id => fst (removeFavorite type id p)
  | Clear => clearFavorites p
  end.

Definition run (p : Page) (actions : list action) : Page :=
  fold_left step actions p.

(** No category holds more than five entries. *)
Definition within_capacity (favs : Favorites) : Prop :=
  List.length (movie favs) <= 5 /\ List.length (book favs) <= 5 /\
  List.length (album favs) <= 5.

(** The entity that stands for a character in escaped text. *)
Definition entity (c : ascii) : string :=
  if Ascii.eqb c "&" then "&amp;"
  else if Ascii.eqb c "<" then "&lt;"
  else if Ascii.eqb c ">" then "&gt;"
  else if Ascii.eqb c JSON.DQUOTE then "&quot;"
  else if Ascii.eqb c "'" then "&#039;"
  else String c "".

Fixpoint entities (s : string) : string :=
  match s with
  | String c r => entity c +:+ entities r
  | EmptyString => ""
  end.

Fixpoint occurs (c : ascii) (s : string) : bool :=
  match s with
  | String d r => Ascii.eqb c d || occurs c r
  | EmptyString => false
  end.

(** [String(x.id) === s], an entry whose id does not convert counting as
    different. *)
Definition has_id (s : string) (x : value) : bool :=
  match id_text x with
  | Normal t => String.eqb t s
  | Throw _ => false
  end.

(** A string, a number, a boolean, [null] or [undefined]. *)
Definition primitive (o : option value) : bool :=
  match o with
  | Some (JArr _) | Some (JObj _) => false
  | _ => true
  end.

(** An entry as the favourites hold them: an object whose [id], [type],
    [title], [subtitle] and [image] are primitive values. *)
Definition media_item (x : value) : bool :=
  match x with
  | JObj members =>
      primitive (own members "id") && primitive (own members "type")
      && primitive (own members "title") && primitive (own members "subtitle")
      && primitive (own members "image")
  | _ => false
  end.

Definition media_items (favs : Favorites) : Prop :=
  Forall (fun x => media_item x = true) (movie favs) /\
  Forall (fun x => media_item x = true) (book favs) /\
  Forall (fun x => media_item x = true) (album favs).

(** No two entries of a category have the same id text. *)
Definition unique_ids (l : list value) : Prop :=
  ForallOrdPairs
    (fun x y => forall s, id_text x = Normal s -> id_text y = Normal s -> False) l.

Definition all_unique (favs : Favorites) : Prop :=
  unique_ids (movie favs) /\ unique_ids (book favs) /\ unique_ids (album favs).

End Client.

(** ** The server: the search endpoints (lines 205-381) *)

Module Server.
Import JS.

(** *** Requests, responses and outbound calls *)

(** A GET request as the handlers see it: the path and [req.query.q]
    ([None] when the parameter is absent). *)
Record Request : Type := {
  path : string;
  query_q : option string
}.

(** The normalized item of lines 260-269, 304-311 and 363-370; [None] is
    [undefined], which [res.json] leaves out. *)
Record MediaItem : Type := {
  id : option value;
  type : string;
  title : option value;
  subtitle : value;
  image : value;
  raw : value
}.

(** The text of an [error] member: a literal of the program, or the message
    of an exception the runtime raised. *)
Inductive Message : Type :=
  | Text (s : string)
  | MessageOf (e : exn).

Definition message (e : exn) : Message :=
  match e with
  | Error m => Text m
  | _ => MessageOf e
  end.

Inductive Body : Type :=
  | Items (items : list MediaItem)
  | Failure (error : Message) (upstream_status : option nat) (details : option value)
  | Health
  | IndexPage
  | NotFound.

Record Response : Type := {
  code : nat;
  body : Body
}.

(** [res.json(b)] and [res.status(c).json(b)] *)
Definition json (b : Body) : Response := {| code := 200; body := b |}.
Definition status_json (c : nat) (b : Body) : Response := {| code := c; body := b |}.

Record FetchRequest : Type := {
  url : string;
  searchParams : list (string * string);
  headers : list (string * string)
}.

Record UpstreamResponse : Type := {
  up_status : nat;
  up_text : string
}.

(** [r.ok] *)
Definition ok (r : UpstreamResponse) : bool :=
  (200 <=? up_status r) && (up_status r <=? 299).

Inductive FetchOutcome : Type :=
  | Rejected
  | Resolved (r : UpstreamResponse).

(** A handler is a computation that may suspend on [await fetch(...)]:
    it returns, throws, or issues a request and continues with its
    outcome. *)
Inductive Prog (A : Type) : Type :=
  | Ret (a : A)
  | Raise (e : exn)
  | Await (rq : FetchRequest) (k : FetchOutcome -> Prog A).
Arguments Ret {A} a.
Arguments Raise {A} e.
Arguments Await {A} rq k.

Definition lift {A} (c : completion A) : Prog A :=
  match c with
  | Normal a => Ret a
  | Throw e => Raise e
  end.

(** [try { p } catch (e) { h e }] around a suspending computation. *)
Fixpoint catch {A} (p : Prog A) (h : exn -> Prog A) : Prog A :=
  match p with
  | Ret a => Ret a
  | Raise e => h e
  | Await rq k => Await rq (fun o => catch (k o) h)
  end.

(** Running a handler against an upstream: the requests sent, in order,
    and the result. *)
Fixpoint run {A} (upstream : FetchRequest -> FetchOutcome) (p : Prog A)
  : list FetchRequest * completion A :=
  match p with
  | Ret a => ([], Normal a)
  | Raise e => ([], Throw e)
  | Await rq k =>
      let (sent, result) := run upstream (k (upstream rq)) in
      (rq :: sent, result)
  end.

(** [await fetch(url, { headers })], a rejection being rethrown. *)
Definition fetch {A} (rq : FetchRequest) (k : UpstreamResponse -> Prog A) : Prog A :=
  Await rq (fun o =>
    match o with
    | Rejected => Raise FetchFailed
    | Resolved r => k r
    end).

(** [url.searchParams.set(name, v)] *)
Fixpoint set_param (name v : string) (ps : list (string * string))
  : list (string * string) :=
  match ps with
  | [] => [(name, v)]
  | (n, w) :: rest =>
      if String.eqb n name
      then (name, v) :: filter (fun p => negb (String.eqb (fst p) name)) rest
      else (n, w) :: set_param name v rest
  end.

Definition searchParams_set (name v : string) (rq : FetchRequest) : FetchRequest :=
  {| url := url rq; searchParams := set_param name v (searchParams rq);
     headers := headers rq |}.

Definition URL (u : string) : FetchRequest :=
  {| url := u; searchParams := []; headers := [] |}.

(** *** Configuration *)

(** [process.env[name]], [""] standing for an unset or empty variable where
    the value is used as a string. *)
Definition env_falsy (env : gmap string string) (name : string) : bool :=
  match env !! name with
  | None => true
  | Some v => String.eqb v ""
  end.

Definition env_text (env : gmap string string) (name : string) : string :=
  match env !! name with
  | None => "undefined"
  | Some v => v
  end.

Definition requireEnv (env : gmap string string) (name : string) : completion unit :=
  if env_falsy env name
  then Throw (Error ("Missing env var: " +:+ name))
  else Normal tt.

(** [(req.query.q || "").toString().trim()] *)
Definition query_text (req : Request) : string :=
  match query_q req with
  | Some s => trim s
  | None => trim ""
  end.

(** *** Normalization of upstream records *)

(** [r.json()] *)
Definition response_json (r : UpstreamResponse) : completion value :=
  match JSON.parse (up_text r) with
  | Some v => Normal v
  | None => Throw SyntaxError
  end.

(** [xs.slice(0, 20).map(f)] on a truthy receiver: only an array has both
    methods. *)
Fixpoint Array_map {B} (f : value -> completion B) (l : list value)
  : completion (list B) :=
  match l with
  | [] => Normal []
  | x :: l' =>
      let! y := f x in
      let! r := Array_map f l' in
      Normal (y :: r)
  end.

Definition slice20_map {B} (f : value -> completion B) (xs : value)
  : completion (list B) :=
  match xs with
  | JArr l => Array_map f (Array_slice0 20 l)
  | _ => Throw TypeError
  end.

(** [x?.length] *)
Definition length_of (o : option value) : option value :=
  match o with
  | Some (JArr l) => Some (JNum (Z.of_nat (List.length l)))
  | Some (JStr s) => Some (JNum (Z.of_nat (String.length s)))
  | Some (JObj members) => own members "length"
  | _ => None
  end.

(** [x?.[0]] *)
Definition first_of (o : option value) : option value :=
  match o with
  | Some (JArr l) => head l
  | Some (JStr (String c _)) => Some (JStr (String c ""))
  | Some (JObj members) => own members "0"
  | _ => None
  end.

(** Lines 260-269. *)
Definition movie_item (m : value) : completion MediaItem :=
  let! m_id := get m "id" in
  let! m_title := get m "title" in
  let! release_date := get m "release_date" in
  let! sub :=
    if truthy release_date then
      match release_date with
      | Some (JStr s) => Normal ("(" +:+ String_slice0 4 s +:+ ")")
      | Some (JArr l) =>
          let! t := ToString (JArr (Array_slice0 4 l)) in Normal ("(" +:+ t +:+ ")")
      | _ => Throw TypeError
      end
    else Normal "" in
  let! poster_path := get m "poster_path" in
  let! img :=
    if truthy poster_path then
      let! t := String_ poster_path in
      Normal ("https://image.tmdb.org/t/p/w342" +:+ t)
    else Normal "" in
  Normal {| id := m_id; type := "movie"; title := m_title;
            subtitle := JStr sub; image := JStr img; raw := m |}.

(** Lines 298-312. *)
Definition book_item (b : value) : completion MediaItem :=
  let! volumeInfo := get b "volumeInfo" in
  let info := or_else volumeInfo (JObj []) in
  let! imageLinks := get info "imageLinks" in
  let thumb :=
    or_else (or_opt (get_chain imageLinks "thumbnail")
                    (get_chain imageLinks "smallThumbnail"))
            (JStr "") in
  let! b_id := get b "id" in
  let! info_title := get info "title" in
  let! authors := get info "authors" in
  let! sub :=
    if truthy (length_of authors) then
      match authors with
      | Some (JArr l) => Array_join ", " l
      | _ => Throw TypeError
      end
    else Normal "" in
  Normal {| id := b_id; type := "book";
            title := Some (or_else info_title (JStr "Untitled"));
            subtitle := JStr sub;
            image := thumb;
            raw := b |}.

(** Lines 363-370. *)
Definition album_item (a : value) : completion MediaItem :=
  let! a_id := get a "id" in
  let! a_title := get a "title" in
  let! year := get a "year" in
  let! sub :=
    if truthy year then
      let! t := String_ year in Normal (JStr ("(" +:+ t +:+ ")"))
    else
      let! format := get a "format" in
      Normal (or_else (first_of format) (JStr "")) in
  let! cover_image := get a "cover_image" in
  Normal {| id := a_id; type := "album";
            title := Some (or_else a_title (JStr "Untitled"));
            subtitle := sub;
            image := or_else cover_image (JStr "");
            raw := a |}.

(** *** The handlers *)

Definition missing_query : Response :=
  status_json 400 (Failure (Text "Missing query param q") None None).

(** [catch (e) { res.status(500).json({ error: e.message }) }] *)
Definition internal_error (e : exn) : Prog Response :=
  Ret (status_json 500 (Failure (message e) None None)).

(** [app.get("/api/search/movies", ...)], lines 243-275. *)
Definition search_movies (env : gmap string string) (req : Request) : Prog Response :=
  catch
    (match requireEnv env "TMDB_API_KEY" with
     | Throw e => Raise e
     | Normal _ =>
         let q := query_text req in
         if String.eqb q "" then Ret missing_query
         else
           let url := URL "https://api.themoviedb.org/3/search/movie" in
           let url := searchParams_set "query" q url in
           let url := searchParams_set "include_adult" "false" url in
           let url := searchParams_set "language" "en-US" url in
           let url := searchParams_set "page" "1" url in
           let url := searchParams_set "api_key" (env_text env "TMDB_API_KEY") url in
           fetch url (fun r =>
             lift (let! data := response_json r in
                   let! results := get data "results" in
                   let! items := slice20_map movie_item (or_else results (JArr [])) in
                   Normal (json (Items items))))
     end)
    internal_error.

(** [app.get("/api/search/books", ...)], lines 281-318. *)
Definition search_books (env : gmap string string) (req : Request) : Prog Response :=
  catch
    (let q := query_text req in
     if String.eqb q "" then Ret missing_query
     else
       let url := URL "https://www.googleapis.com/books/v1/volumes" in
       let url := searchParams_set "q" q url in
       let url := searchParams_set "maxResults" "20" url in
       let url :=
         if env_falsy env "GOOGLE_BOOKS_API_KEY" then url
         else searchParams_set "key" (env_text env "GOOGLE_BOOKS_API_KEY") url in
       fetch url (fun r =>
         lift (let! data := response_json r in
               let! items := get data "items" in
               let! items := slice20_map book_item (or_else items (JArr [])) in
               Normal (json (Items items)))))
    internal_error.

(** [app.get("/api/search/albums", ...)], lines 326-376. *)
Definition search_albums (env : gmap string string) (req : Request) : Prog Response :=
  catch
    (match requireEnv env "DISCOGS_TOKEN" with
     | Throw e => Raise e
     | Normal _ =>
     match requireEnv env "DISCOGS_USER_AGENT" with
     | Throw e => Raise e
     | Normal _ =>
         let q := query_text req in
         if String.eqb q "" then Ret missing_query
         else
           let url := URL "https://api.discogs.com/database/search" in
           let url := searchParams_set "q" q url in
           let url := searchParams_set "per_page" "20" url in
           let url := searchParams_set "page" "1" url in
           let url := searchParams_set "type" "master" url in
           let url := searchParams_set "format" "album" url in
           let rq :=
             {| url := Server.url url; searchParams := searchParams url;
                headers :=
                  [("User-Agent", env_text env "DISCOGS_USER_AGENT");
                   ("Authorization",
                    "Discogs token=" +:+ env_text env "DISCOGS_TOKEN")] |} in
           fetch rq (fun r =>
             let text := up_text r in
             let data :=
               match JSON.parse text with
               | Some v => v
               | None => JObj [("raw", JStr text)]
               end in
             if negb (ok r) then
               Ret (status_json (up_status r)
                      (Failure (Text "Discogs request failed")
                               (Some (up_status r)) (Some data)))
             else
               lift (let! results := get data "results" in
                     let! items := slice20_map album_item (or_else results (JArr [])) in
                     Normal (json (Items items))))
     end end)
    internal_error.

(** *** Routing *)

(** The routes in the order they are registered (lines 223-326). *)
Inductive Route : Type :=
  | Index
  | HealthCheck
  | SearchMovies
  | SearchBooks
  | SearchAlbums.

Definition routes : list (string * Route) :=
  [("/", Index);
   ("/api/health", HealthCheck);
   ("/api/search/movies", SearchMovies);
   ("/api/search/books", SearchBooks);
   ("/api/search/albums", SearchAlbums)].

Definition to_lower (c : ascii) : ascii :=
  let n := nat_of_ascii c in
  if (65 <=? n) && (n <=? 90) then ascii_of_nat (n + 32) else c.

Fixpoint lower (s : string) : string :=
  match s with
  | String c r => String (to_lower c) (lower r)
  | EmptyString => ""
  end.

(** Without one trailing slash. *)
Fixpoint chomp (s : string) : string :=
  match s with
  | EmptyString => ""
  | String c r =>
      match r with
      | EmptyString => if Ascii.eqb c "/" then "" else s
      | String _ _ => String c (chomp r)
      end
  end.

(** Express compares a path with a route as the application leaves it
    configured: ignoring case and one trailing slash. *)
Definition matches (pattern p : string) : bool :=
  String.eqb (chomp (lower p)) (chomp (lower pattern)).

Fixpoint find_route (table : list (string * Route)) (p : string) : option Route :=
  match table with
  | [] => None
  | (pattern, r) :: rest => if matches pattern p then Some r else find_route rest p
  end.

(** The application on a GET request that is not served from the static
    directory: the first matching route handles it, and a request that
    matches none is answered 404. *)
Definition handle (env : gmap string string) (req : Request) : Prog Response :=
  match find_route routes (path req) with
  | Some Index => Ret (json IndexPage)
  | Some HealthCheck => Ret (json Health)
  | Some SearchMovies => search_movies env req
  | Some SearchBooks => search_books env req
  | Some SearchAlbums => search_albums env req
  | None => Ret (status_json 404 NotFound)
  end.

End Server.

(** ** Sample data

    Concrete pages, requests and upstreams, on which the properties below
    are exercised. *)

Import JS.

(** An item as the click handler of the result list builds it (line 146). *)
Definition sample_item (type id : string) : value :=
  JObj [("id", JStr id); ("type", JStr type); ("title", JStr "T");
        ("subtitle", JStr ""); ("image", JStr "")].
(** A page whose storage is empty, and the page after five books were added. *)
Definition empty_page : Client.Page :=
  {| Client.localStorage := ∅; Client.status := "" |}.
Definition five_books : Client.Page :=
  Client.run empty_page
    (map (fun i => Client.Add (sample_item "book" i)) ["1"; "2"; "3"; "4"; "5"]).


(** A stored document whose [movie] is an array, whose [book] is a string
    and which has no [album]. *)
Definition partial_document : value :=
  JObj [("movie", JArr [sample_item "movie" "603"]); ("book", JStr "none")].
Definition partial_store : gmap string string :=
  {[ Client.STORAGE_KEY := JSON.stringify partial_document ]}.

(** A page whose stored [movie] list holds a [null] entry. *)
Definition null_entry_page : Client.Page :=
  {| Client.localStorage :=
       Client.saveFavorites
         {| Client.movie := [JNull]; Client.book := [sample_item "book" "1"];
            Client.album := [] |} ∅;
     Client.status := "" |}.

(** An environment with the three credentials set. *)
Definition all_credentials : gmap string string :=
  {[ "TMDB_API_KEY" := "k"; "DISCOGS_TOKEN" := "t"; "DISCOGS_USER_AGENT" := "ua" ]}.
(** The request [runSearch] sends for a category and a query. *)
Definition search_request (category q : string) : Server.Request :=
  {| Server.path := Client.search_path category; Server.query_q := Some q |}.
(** An upstream that answers every request with the same status and body. *)
Definition answering (status : nat) (text : string)
  : Server.FetchRequest -> Server.FetchOutcome :=
  fun _ => Server.Resolved {| Server.up_status := status; Server.up_text := text |}.
(** The response to a missing environment variable. *)
Definition config_error (name : string) : Server.Response :=
  Server.status_json 500 (Server.Failure (Server.Text ("Missing env var: " +:+ name)) None None).


(** A movie search result whose only record has no title. *)
Definition untitled_results : string :=
  JSON.stringify (JObj [("results", JArr [JObj [("id", JNum 603)]])]).


(** A movie result with twenty-five records, and the item each one maps to. *)
Definition many_results : string :=
  JSON.stringify (JObj [("results", JArr (repeat (JObj [("id", JNum 1)]) 25))]).
Definition bare_movie : Server.MediaItem :=
  {| Server.id := Some (JNum 1); Server.type := "movie"; Server.title := None;
     Server.subtitle := JStr ""; Server.image := JStr "";
     Server.raw := JObj [("id", JNum 1)] |}.

(** An album result whose record has an empty title, and the item it maps to. *)
Definition untitled_albums : string :=
  JSON.stringify (JObj [("results", JArr [JObj [("id", JNum 5); ("title", JStr "")]])]).
Definition untitled_album : Server.MediaItem :=
  {| Server.id := Some (JNum 5); Server.type := "album";
     Server.title := Some (JStr "Untitled");
     Server.subtitle := JStr ""; Server.image := JStr "";
     Server.raw := JObj [("id", JNum 5); ("title", JStr "")] |}.

(** Upstream records of the three catalogues and the items they map to. *)
Definition batman_record : list (string * value) :=
  [("id", JNum 414906); ("title", JStr "The Batman");
   ("release_date", JStr "2022-03-04"); ("poster_path", JStr "/b.jpg")].
Definition batman_item : Server.MediaItem :=
  {| Server.id := Some (JNum 414906); Server.type := "movie";
     Server.title := Some (JStr "The Batman");
     Server.subtitle := JStr "(2022)";
     Server.image := JStr "https://image.tmdb.org/t/p/w342/b.jpg";
     Server.raw := JObj batman_record |}.

Definition discovery_record : list (string * value) :=
  [("id", JNum 1); ("title", JStr "Daft Punk - Discovery"); ("year", JNum 2001);
   ("format", JArr [JStr "CD"; JStr "Album"])].
Definition discovery_item : Server.MediaItem :=
  {| Server.id := Some (JNum 1); Server.type := "album";
     Server.title := Some (JStr "Daft Punk - Discovery");
     Server.subtitle := JStr "(2001)"; Server.image := JStr "";
     Server.raw := JObj discovery_record |}.

Definition dune_record : list (string * value) :=
  [("id", JStr "B1hSG45JCX4C");
   ("volumeInfo",
    JObj [("title", JStr "Dune");
          ("authors", JArr [JStr "Frank Herbert"; JStr "Brian Herbert"]);
          ("imageLinks", JObj [("smallThumbnail", JStr "http://s");
                               ("thumbnail", JStr "http://t")])])].
Definition dune_item : Server.MediaItem :=
  {| Server.id := Some (JStr "B1hSG45JCX4C"); Server.type := "book";
     Server.title := Some (JStr "Dune");
     Server.subtitle := JStr "Frank Herbert, Brian Herbert";
     Server.image := JStr "http://t";
     Server.raw := JObj dune_record |}.

(** ** Notions used in the statements *)

(** The five replacements of [escapeHtml], on a string. *)
Definition replacements (s : string) : string :=
  replaceAll "'" "&#039;"
    (replaceAll JSON.DQUOTE "&quot;"
      (replaceAll ">" "&gt;"
        (replaceAll "<" "&lt;"
          (replaceAll "&" "&amp;" s)))).

(** The characters that open or close a tag or an attribute value. *)
Definition markup (c : ascii) : bool :=
  Ascii.eqb c "<" || Ascii.eqb c ">" || Ascii.eqb c JSON.DQUOTE || Ascii.eqb c "'".

(** What every item of a category's response satisfies. *)
Definition titled (it : Server.MediaItem) : Prop :=
  exists v, Server.title it = Some v /\ truthy (Some v) = true.

(** The shape of a handler's run: at most one request is sent, a response
    comes back, and a response that carries items has status 200 and at
    most twenty of them, each satisfying what the mapping guarantees. *)
Definition answers (P : Server.MediaItem -> Prop)
  (result : list Server.FetchRequest * completion Server.Response) : Prop :=
  exists sent r,
    result = (sent, Normal r) /\ List.length sent <= 1 /\
    (forall items, Server.body r = Server.Items items ->
       Server.code r = 200 /\ List.length items <= 20 /\ Forall P items).

(** The 500 response for an exception, and the response with no items. *)
Definition server_error (e : exn) : Server.Response :=
  Server.status_json 500 (Server.Failure (Server.message e) None None).
Definition no_items : Server.Response := Server.json (Server.Items []).

(** * Properties *)

(** ** [JSON.parse] reads back what [JSON.stringify] writes *)

Section Roundtrip.
Import JSON.

Lemma parse_chars_emit_char c k :
  parse_chars (emit_char c k) = push c (parse_chars k).
Proof.
  destruct c as [[] [] [] [] [] [] [] []]; reflexivity.
Qed.

Lemma parse_chars_emit s k : parse_chars (emit_chars s k) = Some (s, k).
Proof.
  induction s as [|c s IH]; simpl.
  - reflexivity.
  - rewrite parse_chars_emit_char, IH. reflexivity.
Qed.

Lemma unorm_nzfirst d : Decimal.unorm d = Decimal.zero \/ nzfirst (Decimal.unorm d) = true.
Proof.
  induction d; simpl; auto.
Qed.

Lemma to_uint_nzfirst p : nzfirst (Pos.to_uint p) = true.
Proof.
  assert (E : Decimal.unorm (Pos.to_uint p) = Pos.to_uint p).
  { rewrite <- (DecimalPos.Unsigned.to_of (Pos.to_uint p)).
    rewrite DecimalPos.Unsigned.of_to. reflexivity. }
  destruct (unorm_nzfirst (Pos.to_uint p)) as [H|H]; rewrite E in H.
  - destruct (DecimalPos.Unsigned.to_uint_nonzero p H).
  - exact H.
Qed.

Lemma span_digits_uint d k :
  ends_number k = true ->
  span_digits (NilEmpty.string_of_uint d +:+ k) = (NilEmpty.string_of_uint d, k).
Proof.
  intros Hk. induction d; simpl; try (rewrite IHd; reflexivity).
  destruct k as [|c k']; [reflexivity|].
  simpl in Hk. apply andb_true_iff in Hk as [Hd _].
  simpl. destruct (is_digit c); [discriminate | reflexivity].
Qed.

Lemma parse_unsigned_uint d k :
  d = Decimal.zero \/ nzfirst d = true ->
  ends_number k = true ->
  parse_unsigned (NilZero.string_of_uint d +:+ k) = Some (Z.of_uint d, k).
Proof.
  intros Hd Hk.
  assert (Hc : continues_number k = false).
  { destruct k; [reflexivity|]. simpl in Hk.
    apply andb_true_iff in Hk as [_ Hk]. now apply negb_true_iff in Hk. }
  destruct Hd as [->|Hd].
  - unfold parse_unsigned.
    destruct k as [|c k']; [reflexivity|].
    simpl in Hk. apply andb_true_iff in Hk as [Hdg _].
    simpl in Hc. simpl. destruct (is_digit c); [discriminate|].
    simpl. rewrite Hc. reflexivity.
  - assert (Hn : d <> Decimal.Nil) by (intros ->; discriminate).
    pose proof (NilZero.usu d Hn) as Hu.
    unfold parse_unsigned.
    assert (Es : NilZero.string_of_uint d = NilEmpty.string_of_uint d)
      by (destruct d; try reflexivity; congruence).
    rewrite Es in *. rewrite span_digits_uint by assumption.
    destruct d; try discriminate; simpl NilEmpty.string_of_uint in *;
      cbv iota; simpl andb; cbv iota; rewrite Hc, Hu; reflexivity.
Qed.

Lemma parse_number_toString n k :
  ends_number k = true ->
  parse_number (Number_toString n +:+ k) = Some (n, k).
Proof.
  intros Hk. unfold Number_toString.
  destruct n as [|p|p]; simpl Z.to_int; unfold NilZero.string_of_int.
  - exact (parse_unsigned_uint Decimal.zero k (or_introl eq_refl) Hk).
  - pose proof (to_uint_nzfirst p) as Hp.
    pose proof (parse_unsigned_uint (Pos.to_uint p) k (or_intror Hp) Hk) as H.
    unfold parse_number.
    destruct (NilZero.string_of_uint (Pos.to_uint p) +:+ k) as [|c r] eqn:E.
    + unfold parse_unsigned in H. simpl in H. discriminate.
    + destruct (Ascii.eqb c "-") eqn:Ec.
      * apply Ascii.eqb_eq in Ec. subst c.
        unfold parse_unsigned in H. simpl in H. discriminate.
      * rewrite H. f_equal. f_equal. unfold Z.of_uint.
        rewrite DecimalPos.Unsigned.of_to. reflexivity.
  - pose proof (to_uint_nzfirst p) as Hp.
    pose proof (parse_unsigned_uint (Pos.to_uint p) k (or_intror Hp) Hk) as H.
    change (parse_number (String "-" (NilZero.string_of_uint (Pos.to_uint p) +:+ k))
            = Some (Z.neg p, k)).
    unfold parse_number. rewrite Ascii.eqb_refl, H.
    f_equal. f_equal. unfold Z.of_uint.
    rewrite DecimalPos.Unsigned.of_to. reflexivity.
Qed.

(** Induction on values, with the hypothesis for every element / member. *)
Lemma value_ind (P : value -> Prop) :
  P JNull -> (forall b, P (JBool b)) -> (forall n, P (JNum n)) ->
  (forall s, P (JStr s)) ->
  (forall l, Forall P l -> P (JArr l)) ->
  (forall m, Forall (fun kv => P (snd kv)) m -> P (JObj m)) ->
  forall v, P v.
Proof.
  intros Hnull Hbool Hnum Hstr Harr Hobj.
  fix IH 1. intros [ | b | n | s | l | m].
  - exact Hnull.
  - apply Hbool.
  - apply Hnum.
  - apply Hstr.
  - apply Harr. induction l as [|x l IHl]; constructor; [apply IH | exact IHl].
  - apply Hobj. induction m as [|[k x] m IHm]; constructor; [apply IH | exact IHm].
Qed.

Lemma delimited_ends_number k : delimited k = true -> ends_number k = true.
Proof.
  destruct k as [|c k]; [reflexivity|]. simpl.
  intros H. apply orb_true_iff in H as [H|H]; [apply orb_true_iff in H as [H|H]|];
    apply Ascii.eqb_eq in H; subst c; reflexivity.
Qed.

Lemma string_of_uint_starts d k :
  starts_value (NilZero.string_of_uint d +:+ k) = true.
Proof. destruct d; reflexivity. Qed.

Lemma emit_starts v k : starts_value (emit v k) = true.
Proof.
  destruct v as [ | [] | n | s | l | m]; try reflexivity.
  simpl. unfold Number_toString.
  destruct (Z.to_int n); simpl; [apply string_of_uint_starts | reflexivity].
Qed.

Lemma parse_value_number f c r :
  Ascii.eqb c "-" || is_digit c = true ->
  parse_value (S f) (String c r) =
  match parse_number (String c r) with
  | Some (n, rest) => Some (JNum n, rest)
  | None => None
  end.
Proof.
  destruct c as [[] [] [] [] [] [] [] []]; intros H; try discriminate H; reflexivity.
Qed.

Lemma number_starts n k :
  exists c r, Number_toString n +:+ k = String c r /\ Ascii.eqb c "-" || is_digit c = true.
Proof.
  unfold Number_toString. destruct (Z.to_int n) as [d|d]; simpl.
  - destruct d; simpl; eauto.
  - eauto.
Qed.

Lemma parse_value_cons f c r :
  starts_value (String c r) = true ->
  parse_value (S f) (String "[" (String c r)) =
  match parse_value f (String c r) with
  | Some (x, r1) =>
      match parse_elements f r1 with
      | Some (l, r2) => Some (JArr (x :: l), r2)
      | None => None
      end
  | None => None
  end.
Proof.
  destruct c as [[] [] [] [] [] [] [] []]; intros H; try discriminate H; reflexivity.
Qed.

Lemma parse_member_emit f name x k :
  (forall k', delimited k' = true -> parse_value f (emit x k') = Some (x, k')) ->
  delimited k = true ->
  parse_member (S f) (emit_string name (String ":" (emit x k))) = Some ((name, x), k).
Proof.
  intros Hx Hk. unfold emit_string.
  change (parse_member (S f) (String DQUOTE (emit_chars name (String ":" (emit x k)))))
    with (match parse_chars (emit_chars name (String ":" (emit x k))) with
          | Some (name, r) =>
              match skip_ws r with
              | EmptyString => None
              | String c r1 =>
                  if Ascii.eqb c ":" then
                    match parse_value f r1 with
                    | Some (x, r2) => Some ((name, x), r2)
                    | None => None
                    end
                  else None
              end
          | None => None
          end).
  rewrite parse_chars_emit.
  change (skip_ws (String ":" (emit x k))) with (String ":" (emit x k)).
  cbv beta iota. rewrite Ascii.eqb_refl, Hx by assumption. reflexivity.
Qed.

Lemma parse_value_member f r :
  parse_value (S f) (String "{" (String DQUOTE r)) =
  match parse_member f (String DQUOTE r) with
  | Some (m, r1) =>
      match parse_members f r1 with
      | Some (l, r2) => Some (JObj (m :: l), r2)
      | None => None
      end
  | None => None
  end.
Proof. reflexivity. Qed.

Lemma emit_roundtrip v :
  forall fuel k, size v <= fuel -> delimited k = true ->
  parse_value fuel (emit v k) = Some (v, k).
Proof.
  induction v as [ | b | n | s | l IHl | m IHm] using value_ind;
    intros fuel k Hf Hk; (destruct fuel as [|f]; [simpl in Hf; lia|]).
  - reflexivity.
  - destruct b; reflexivity.
  - destruct (number_starts n k) as (c & r & E & Hc).
    simpl emit. rewrite E. rewrite parse_value_number by exact Hc.
    rewrite <- E. rewrite parse_number_toString; [reflexivity|].
    now apply delimited_ends_number.
  - simpl. unfold emit_string.
    change (parse_value (S f) (String DQUOTE (emit_chars s k)))
      with (match parse_chars (emit_chars s k) with
            | Some (str, rest) => Some (JStr str, rest)
            | None => None
            end).
    rewrite parse_chars_emit. reflexivity.
  - destruct l as [|x l]; [reflexivity|].
    change (emit (JArr (x :: l)) k) with (String "[" (emit x (emit_elements l k))).
    change (size (JArr (x :: l))) with (S (size x + size_elements l)) in Hf.
    pose proof (emit_starts x (emit_elements l k)) as Hs.
    destruct (emit x (emit_elements l k)) as [|c r] eqn:E; [discriminate|].
    rewrite parse_value_cons by exact Hs. rewrite <- E.
    inversion IHl as [|? ? Hx Hl]; subst.
    assert (Htail : forall g, size_elements l <= g ->
              parse_elements g (emit_elements l k) = Some (l, k)).
    { clear - Hl Hk. induction l as [|y l IH]; intros g Hg;
        (destruct g as [|g]; [simpl in Hg; lia|]).
      - simpl. reflexivity.
      - inversion Hl as [|? ? Hy Hl']; subst.
        change (emit_elements (y :: l) k) with (String "," (emit y (emit_elements l k))).
        change (size_elements (y :: l)) with (S (size y + size_elements l)) in Hg.
        change (parse_elements (S g) (String "," (emit y (emit_elements l k))))
          with (match parse_value g (emit y (emit_elements l k)) with
                | Some (x, r1) =>
                    match parse_elements g r1 with
                    | Some (l, r2) => Some (x :: l, r2)
                    | None => None
                    end
                | None => None
                end).
        rewrite Hy; [| lia | destruct l; reflexivity].
        rewrite IH; [reflexivity | assumption | lia]. }
    rewrite Hx; [| lia | destruct l; reflexivity].
    rewrite Htail by lia. reflexivity.
  - destruct m as [|[name x] m]; [reflexivity|].
    change (emit (JObj ((name, x) :: m)) k)
      with (String "{" (emit_string name (String ":" (emit x (emit_members m k))))).
    change (size (JObj ((name, x) :: m))) with (S (S (size x) + size_members m)) in Hf.
    unfold emit_string at 1. rewrite parse_value_member.
    inversion IHm as [|? ? Hx Hm]; subst. simpl in Hx.
    assert (Htail : forall g, size_members m <= g ->
              parse_members g (emit_members m k) = Some (m, k)).
    { clear - Hm Hk. induction m as [|[name y] m IH]; intros g Hg;
        (destruct g as [|g]; [simpl in Hg; lia|]).
      - simpl. reflexivity.
      - inversion Hm as [|? ? Hy Hm']; subst. simpl in Hy.
        change (emit_members ((name, y) :: m) k)
          with (String "," (emit_string name (String ":" (emit y (emit_members m k))))).
        change (size_members ((name, y) :: m))
          with (S (S (size y) + size_members m)) in Hg.
        change (parse_members (S g)
                  (String "," (emit_string name (String ":" (emit y (emit_members m k))))))
          with (match parse_member g
                        (emit_string name (String ":" (emit y (emit_members m k)))) with
                | Some (m0, r1) =>
                    match parse_members g r1 with
                    | Some (l, r2) => Some (m0 :: l, r2)
                    | None => None
                    end
                | None => None
                end).
        destruct g as [|g]; [lia|].
        rewrite parse_member_emit; [| intros; apply Hy; [lia|assumption]
                                     | destruct m as [|[? ?] ?]; reflexivity].
        rewrite IH; [reflexivity | assumption | lia]. }
    destruct f as [|f]; [lia|].
    change (String DQUOTE (emit_chars name (String ":" (emit x (emit_members m k)))))
      with (emit_string name (String ":" (emit x (emit_members m k)))).
    rewrite parse_member_emit; [| intros; apply Hx; [lia|assumption]
                                 | destruct m as [|[? ?] ?]; reflexivity].
    rewrite Htail by lia. reflexivity.
Qed.

Lemma length_append a b : String.length (a +:+ b) = String.length a + String.length b.
Proof. induction a; simpl; [reflexivity | now rewrite IHa]. Qed.

Lemma length_emit_char c k : S (String.length k) <= String.length (emit_char c k).
Proof.
  unfold emit_char.
  repeat match goal with |- context [if ?b then _ else _] => destruct b end;
    simpl; lia.
Qed.

Lemma length_emit_chars s k : S (String.length k) <= String.length (emit_chars s k).
Proof.
  induction s as [|c s IH]; simpl; [lia|].
  pose proof (length_emit_char c (emit_chars s k)). lia.
Qed.

Lemma length_Number_toString n : 1 <= String.length (Number_toString n).
Proof.
  unfold Number_toString. destruct (Z.to_int n) as [d|d]; simpl; [|lia].
  destruct d; simpl; lia.
Qed.

Lemma size_le_length v : forall k, size v + String.length k <= String.length (emit v k).
Proof.
  induction v as [ | b | n | s | l IHl | m IHm] using value_ind; intros k.
  - simpl. rewrite length_append. simpl. lia.
  - destruct b; simpl; rewrite length_append; simpl; lia.
  - simpl. rewrite length_append. pose proof (length_Number_toString n). lia.
  - simpl. pose proof (length_emit_chars s k). lia.
  - destruct l as [|x l]; [simpl; lia|].
    change (emit (JArr (x :: l)) k) with (String "[" (emit x (emit_elements l k))).
    change (size (JArr (x :: l))) with (S (size x + size_elements l)).
    inversion IHl as [|? ? Hx Hl]; subst.
    assert (Ht : size_elements l + String.length k <= String.length (emit_elements l k)).
    { clear - Hl. induction l as [|y l IH]; [simpl; lia|].
      inversion Hl as [|? ? Hy Hl']; subst.
      change (emit_elements (y :: l) k) with (String "," (emit y (emit_elements l k))).
      change (size_elements (y :: l)) with (S (size y + size_elements l)).
      specialize (Hy (emit_elements l k)). specialize (IH Hl'). simpl. lia. }
    specialize (Hx (emit_elements l k)). simpl. lia.
  - destruct m as [|[name x] m]; [simpl; lia|].
    change (emit (JObj ((name, x) :: m)) k)
      with (String "{" (emit_string name (String ":" (emit x (emit_members m k))))).
    change (size (JObj ((name, x) :: m))) with (S (S (size x) + size_members m)).
    inversion IHm as [|? ? Hx Hm]; subst. simpl in Hx.
    assert (Ht : size_members m + String.length k <= String.length (emit_members m k)).
    { clear - Hm. induction m as [|[name y] m IH]; [simpl; lia|].
      inversion Hm as [|? ? Hy Hm']; subst. simpl in Hy.
      change (emit_members ((name, y) :: m) k)
        with (String "," (emit_string name (String ":" (emit y (emit_members m k))))).
      change (size_members ((name, y) :: m)) with (S (S (size y) + size_members m)).
      specialize (Hy (emit_members m k)). specialize (IH Hm').
      pose proof (length_emit_chars name (String ":" (emit y (emit_members m k)))) as Hn.
      unfold emit_string. simpl in *. lia. }
    specialize (Hx (emit_members m k)).
    pose proof (length_emit_chars name (String ":" (emit x (emit_members m k)))) as Hn.
    unfold emit_string. simpl in *. lia.
Qed.

(** [JSON.parse(JSON.stringify(v))] gives [v] back. *)
Lemma parse_stringify v : parse (stringify v) = Some v.
Proof.
  unfold parse, stringify.
  rewrite emit_roundtrip; [reflexivity | | reflexivity].
  pose proof (size_le_length v ""). simpl in *. lia.
Qed.

End Roundtrip.


(** ** The favourites store *)

Lemma stringify_nonempty favs :
  String.eqb (JSON.stringify (Client.to_value favs)) "" = false.
Proof. reflexivity. Qed.

(** Reading back what [saveFavorites] wrote. *)
Lemma loadFavorites_saveFavorites favs (store : gmap string string) :
  Client.loadFavorites (Client.saveFavorites favs store) = favs.
Proof.
  unfold Client.loadFavorites, Client.saveFavorites.
  rewrite lookup_insert_eq, stringify_nonempty.
  unfold Client.JSON_parse. rewrite parse_stringify.
  destruct favs; reflexivity.
Qed.


Lemma index_assign favs key l l0 :
  Client.index favs key = Some l0 ->
  Client.index (Client.assign favs key l) key = Some l.
Proof.
  unfold Client.index, Client.assign.
  destruct (String.eqb key "movie"); [reflexivity|].
  destruct (String.eqb key "book"); [reflexivity|].
  destruct (String.eqb key "album"); [reflexivity|].
  discriminate.
Qed.

Lemma assign_same favs key l :
  Client.index favs key = Some l -> Client.assign favs key l = favs.
Proof.
  unfold Client.index, Client.assign. destruct favs as [m b a]; simpl.
  destruct (String.eqb key "movie"); [intros [= ->]; reflexivity|].
  destruct (String.eqb key "book"); [intros [= ->]; reflexivity|].
  destruct (String.eqb key "album"); [intros [= ->]; reflexivity|].
  discriminate.
Qed.

Lemma within_capacity_assign favs key l l0 :
  Client.within_capacity favs -> Client.index favs key = Some l0 ->
  List.length l <= 5 -> Client.within_capacity (Client.assign favs key l).
Proof.
  unfold Client.within_capacity, Client.index, Client.assign.
  destruct favs as [m b a]; simpl. intros (Hm & Hb & Ha) Hi Hl.
  destruct (String.eqb key "movie"); [simpl; lia|].
  destruct (String.eqb key "book"); [simpl; lia|].
  destruct (String.eqb key "album"); [simpl; lia|].
  discriminate.
Qed.

Lemma within_capacity_index favs key l :
  Client.within_capacity favs -> Client.index favs key = Some l -> List.length l <= 5.
Proof.
  unfold Client.within_capacity, Client.index.
  destruct favs as [m b a]; simpl. intros (Hm & Hb & Ha).
  destruct (String.eqb key "movie"); [intros [= <-]; lia|].
  destruct (String.eqb key "book"); [intros [= <-]; lia|].
  destruct (String.eqb key "album"); [intros [= <-]; lia|].
  discriminate.
Qed.

Lemma Array_filter_length f l l' :
  Client.Array_filter f l = Normal l' -> List.length l' <= List.length l.
Proof.
  revert l'. induction l as [|x l IH]; simpl; intros l' H.
  - injection H as <-. simpl. lia.
  - destruct (f x) as [b|e]; simpl in H; [|discriminate].
    destruct (Client.Array_filter f l) as [r|e]; simpl in H; [|discriminate].
    injection H as <-. specialize (IH r eq_refl). destruct b; simpl; lia.
Qed.


Lemma Array_filter_all f l :
  Forall (fun x => f x = Normal true) l -> Client.Array_filter f l = Normal l.
Proof.
  induction 1 as [|x l Hx _ IH]; simpl; [reflexivity|].
  rewrite Hx. simpl. rewrite IH. reflexivity.
Qed.

Lemma Array_some_none f l :
  Forall (fun x => f x = Normal false) l -> Client.Array_some f l = Normal false.
Proof.
  induction 1 as [|x l Hx _ IH]; simpl; [reflexivity|].
  rewrite Hx. simpl. exact IH.
Qed.

(** [some] finds an element when everything before it can be tested. *)
Lemma Array_some_found f l x :
  Forall (fun y => exists b, f y = Normal b) l ->
  In x l -> f x = Normal true -> Client.Array_some f l = Normal true.
Proof.
  induction 1 as [|y l [b Hy] _ IH]; simpl; intros Hin Hx; [contradiction|].
  rewrite Hy. simpl. destruct b; [reflexivity|].
  destruct Hin as [->|Hin]; [congruence | auto].
Qed.

Lemma Array_some_false_inv f l :
  Client.Array_some f l = Normal false -> Forall (fun x => f x = Normal false) l.
Proof.
  induction l as [|x l IH]; simpl; intros H; constructor.
  - destruct (f x) as [[]|e]; simpl in H; congruence.
  - apply IH. destruct (f x) as [[]|e]; simpl in H; congruence.
Qed.

Lemma Array_some_last f l x :
  Forall (fun y => f y = Normal false) l -> f x = Normal true ->
  Client.Array_some f (l ++ [x]) = Normal true.
Proof.
  induction 1 as [|y l Hy _ IH]; simpl; intros Hx.
  - rewrite Hx. reflexivity.
  - rewrite Hy. simpl. auto.
Qed.

(** C8: when the persisted favourites entry is absent, or its text is not
    parseable as JSON, [loadFavorites] returns the empty collection
    [{movie: [], book: [], album: []}].  It is a total function: the parse
    error is caught inside it and never reaches the caller. *)
Theorem load_absent_or_unparseable (store : gmap string string) :
  store !! Client.STORAGE_KEY = None \/
  (exists raw, store !! Client.STORAGE_KEY = Some raw /\ JSON.parse raw = None) ->
  Client.loadFavorites store = Client.no_favorites.
Proof.
  unfold Client.loadFavorites. intros [-> | (raw & -> & Hp)]; [reflexivity|].
  destruct (String.eqb raw ""); [reflexivity|].
  unfold Client.JSON_parse. rewrite Hp. reflexivity.
Qed.

Lemma load_absent_or_unparseable_witness :
  Client.loadFavorites ∅ = Client.no_favorites /\
  Client.loadFavorites
    {[ Client.STORAGE_KEY :=
         String_slice0 10 (JSON.stringify (Client.to_value Client.no_favorites)) ]}
  = Client.no_favorites.
Proof.
  split.
  - apply load_absent_or_unparseable. left. reflexivity.
  - apply load_absent_or_unparseable. right.
    eexists. split; [apply lookup_singleton_eq | vm_compute; reflexivity].
Defined.

Lemma index_no_favorites key :
  In key ["movie"; "book"; "album"] -> Client.index Client.no_favorites key = Some [].
Proof. intros [<-|[<-|[<-|[]]]]; reflexivity. Qed.

(** C10: [loadFavorites] sanitizes per category.  When the persisted text
    parses as JSON, each of the keys [movie], [book] and [album] is read on
    its own: a key whose stored value is an array is returned unchanged, a
    key that is missing or not an array gives [[]] (the result has a list
    under all three keys). *)
Theorem load_sanitizes_per_category (store : gmap string string) raw parsed key :
  store !! Client.STORAGE_KEY = Some raw ->
  JSON.parse raw = Some parsed ->
  In key ["movie"; "book"; "album"] ->
  let stored := get_chain (Some parsed) key in
  (forall l, stored = Some (JArr l) ->
             Client.index (Client.loadFavorites store) key = Some l) /\
  (Array_isArray stored = false ->
   Client.index (Client.loadFavorites store) key = Some []).
Proof.
  intros Hs Hp Hk. unfold Client.loadFavorites. rewrite Hs.
  destruct (String.eqb raw "") eqn:E.
  { apply String.eqb_eq in E. subst raw. discriminate Hp. }
  unfold Client.JSON_parse. rewrite Hp.
  destruct parsed as [ | b | n | s | l0 | m]; simpl;
    try (split; [discriminate | intros _; now apply index_no_favorites]).
  destruct Hk as [<-|[<-|[<-|[]]]]; simpl;
    (split; [intros l -> | intros H]; [reflexivity|]);
    match goal with
    | H : Array_isArray ?o = false |- _ => destruct o as [[]|]; try discriminate H; reflexivity
    end.
Qed.

Lemma load_sanitizes_per_category_witness :
  Client.index (Client.loadFavorites partial_store) "movie"
  = Some [sample_item "movie" "603"] /\
  Client.index (Client.loadFavorites partial_store) "book" = Some [] /\
  Client.index (Client.loadFavorites partial_store) "album" = Some [].
Proof.
  assert (Hs : partial_store !! Client.STORAGE_KEY
               = Some (JSON.stringify partial_document))
    by apply lookup_singleton_eq.
  pose proof (parse_stringify partial_document) as Hp.
  split; [|split].
  - apply (proj1 (load_sanitizes_per_category partial_store _ _ "movie" Hs Hp
                    (or_introl eq_refl))).
    reflexivity.
  - apply (proj2 (load_sanitizes_per_category partial_store _ _ "book" Hs Hp
                    (or_intror (or_introl eq_refl)))).
    reflexivity.
  - apply (proj2 (load_sanitizes_per_category partial_store _ _ "album" Hs Hp
                    (or_intror (or_intror (or_introl eq_refl))))).
    reflexivity.
Defined.


(** The page [removeFavorite] leaves: the category filtered and saved, or
    the page as it was when the filtering raises. *)
Lemma step_remove p type id :
  Client.step p (Client.Remove type id)
  = match Client.index (Client.loadFavorites (Client.localStorage p)) type with
    | None => p
    | Some l =>
        match Client.Array_filter (Client.other_id id) l with
        | Throw _ => p
        | Normal l' =>
            {| Client.localStorage :=
                 Client.saveFavorites
                   (Client.assign (Client.loadFavorites (Client.localStorage p)) type l')
                   (Client.localStorage p);
               Client.status := Client.status p |}
        end
    end.
Proof.
  unfold Client.step, Client.removeFavorite.
  destruct (Client.index _ type) as [l|]; [|reflexivity].
  destruct (Client.Array_filter _ l); reflexivity.
Qed.


(** Entries that are media items can always be rendered. *)
Lemma String_primitive o : Client.primitive o = true -> exists s, String_ o = Normal s.
Proof. destruct o as [[]|]; try discriminate; cbn; eauto. Qed.

Lemma escapeHtml_primitive o :
  Client.primitive o = true -> exists s, Client.escapeHtml o = Normal s.
Proof.
  intros H. destruct (String_primitive o H) as [s Hs].
  unfold Client.escapeHtml. rewrite Hs. cbn [bind]. eauto.
Qed.

Lemma primitive_or_else o s :
  Client.primitive o = true -> Client.primitive (Some (or_else o (JStr s))) = true.
Proof.
  unfold or_else. destruct o as [v|]; [|reflexivity].
  destruct (truthy (Some v)); [|reflexivity]. auto.
Qed.

Lemma cardTemplate_media_item x showAdd showRemove :
  Client.media_item x = true ->
  exists html, Client.cardTemplate x showAdd showRemove = Normal html.
Proof.
  destruct x as [ | | | | | members]; try discriminate. cbn [Client.media_item].
  intros H. repeat (apply andb_true_iff in H as [H ?]).
  destruct (String_primitive _ H) as [id Hid].
  destruct (String_primitive (own members "type")) as [ty Hty]; [assumption|].
  destruct (String_primitive (own members "image")) as [im Him]; [assumption|].
  destruct (escapeHtml_primitive (own members "title")) as [ti Hti]; [assumption|].
  destruct (escapeHtml_primitive (Some (or_else (own members "subtitle") (JStr ""))))
    as [su Hsu]; [now apply primitive_or_else|].
  unfold Client.cardTemplate. cbn [get bind].
  rewrite Him, Hti, Hsu, Hty, Hid. cbn [bind].
  destruct (truthy (own members "image")), showAdd, showRemove; cbn [bind]; eauto.
Qed.

Lemma favorite_cards_media_items l :
  Forall (fun x => Client.media_item x = true) l ->
  exists cards, Client.favorite_cards l = Normal cards.
Proof.
  induction 1 as [|x l Hx _ [cards IH]]; cbn [Client.favorite_cards]; [eauto|].
  destruct (cardTemplate_media_item x false true Hx) as [card ->].
  rewrite IH. cbn [bind]. eauto.
Qed.

Lemma renderFavorites_media_items (store : gmap string string) :
  Client.media_items (Client.loadFavorites store) ->
  exists cards, Client.renderFavorites store = Normal cards.
Proof.
  intros (Hm & Hb & Ha). unfold Client.renderFavorites.
  destruct (favorite_cards_media_items _ Hm) as [m ->].
  destruct (favorite_cards_media_items _ Hb) as [b ->].
  destruct (favorite_cards_media_items _ Ha) as [a ->].
  cbn [bind]. eauto.
Qed.

Lemma Array_filter_keeps (P : value -> Prop) f l l' :
  Client.Array_filter f l = Normal l' -> Forall P l -> Forall P l'.
Proof.
  revert l'. induction l as [|x l IH]; cbn [Client.Array_filter]; intros l' H HP.
  - injection H as <-. constructor.
  - inversion HP as [|? ? Hx Hl]; subst.
    destruct (f x) as [b|e]; cbn [bind] in H; [|discriminate].
    destruct (Client.Array_filter f l) as [r|e]; cbn [bind] in H; [|discriminate].
    injection H as <-. specialize (IH r eq_refl Hl).
    destruct b; [constructor; assumption | assumption].
Qed.

Lemma media_items_index favs key l :
  Client.media_items favs -> Client.index favs key = Some l ->
  Forall (fun x => Client.media_item x = true) l.
Proof.
  unfold Client.media_items, Client.index.
  destruct favs as [m b a]; cbn [Client.movie Client.book Client.album].
  intros (Hm & Hb & Ha).
  destruct (String.eqb key "movie"); [intros [= <-]; assumption|].
  destruct (String.eqb key "book"); [intros [= <-]; assumption|].
  destruct (String.eqb key "album"); [intros [= <-]; assumption|].
  discriminate.
Qed.

Lemma media_items_assign favs key l :
  Client.media_items favs -> Forall (fun x => Client.media_item x = true) l ->
  Client.media_items (Client.assign favs key l).
Proof.
  unfold Client.media_items, Client.assign.
  destruct favs as [m b a]; cbn [Client.movie Client.book Client.album].
  intros (Hm & Hb & Ha) Hl.
  destruct (String.eqb key "movie"); [cbn; auto|].
  destruct (String.eqb key "book"); [cbn; auto|].
  destruct (String.eqb key "album"); cbn; auto.
Qed.



(** The rendering comes after the save: on a store with an entry that
    cannot be rendered, [removeFavorite] raises, and the removal has been
    written. *)
Lemma remove_raises_after_saving :
  exists p',
    Client.removeFavorite "book" (JStr "1") null_entry_page = (p', Throw TypeError) /\
    Client.book (Client.loadFavorites (Client.localStorage p')) = [] /\
    Client.step null_entry_page (Client.Remove "book" (JStr "1")) = p'.
Proof. eexists. split; [vm_compute; reflexivity|]. split; vm_compute; reflexivity. Qed.

(** After the clear button the store is empty, so the rendering that
    follows writes the three placeholders and cannot raise. *)
Lemma render_after_clear p :
  Client.renderFavorites (Client.localStorage (Client.clearFavorites p))
  = Normal {| Client.favMovie := Client.or_placeholder "" "movie";
              Client.favBook := Client.or_placeholder "" "book";
              Client.favAlbum := Client.or_placeholder "" "album" |}.
Proof.
  unfold Client.renderFavorites, Client.clearFavorites, Client.loadFavorites.
  cbn [Client.localStorage]. rewrite lookup_delete_eq. reflexivity.
Qed.

Lemma type_key_index_item item key :
  Client.type_key item = Normal key -> exists o, get item "id" = Normal o.
Proof.
  unfold Client.type_key. destruct item; simpl; try discriminate; eauto.
Qed.

Lemma added_status_inv key k (p : Client.Page) :
  ("Already in favorites." : string) <> "Added to " +:+ k +:+ " favorites." /\
  "You already have 5 " +:+ key +:+ "s. Remove one first." <> "Added to " +:+ k +:+ " favorites.".
Proof. split; discriminate. Qed.

(** C6: for an item whose id converts to a string, if its category already
    holds an entry with string-equal id, [addFavorite] reports
    [Already in favorites.] and writes nothing (the page differs by the
    status line only); and right after an add of the item that succeeded,
    adding it again is rejected in that way, so the same item is added at
    most once. *)
Theorem add_duplicate_rejected item s :
  Client.id_text item = Normal s ->
  (forall p key l x,
      Client.type_key item = Normal key ->
      Client.index (Client.loadFavorites (Client.localStorage p)) key = Some l ->
      Forall (fun y => exists t, Client.id_text y = Normal t) l ->
      In x l -> Client.id_text x = Normal s ->
      Client.addFavorite item p = Normal (Client.setStatus "Already in favorites." p)) /\
  (forall p p1 key,
      Client.addFavorite item p = Normal p1 ->
      Client.status p1 = "Added to " +:+ key +:+ " favorites." ->
      Client.addFavorite item p1 = Normal (Client.setStatus "Already in favorites." p1)).
Proof.
  intros Hid. split.
  - intros p key l x Hk Hi Hl Hin Hx. unfold Client.addFavorite. rewrite Hk. simpl.
    rewrite Hi.
    rewrite (Array_some_found (Client.same_id (Client.id_text item)) l x); [reflexivity| |assumption|].
    + eapply Forall_impl; [exact Hl|]. intros y [t Ht].
      unfold Client.same_id. rewrite Ht, Hid. simpl. eauto.
    + unfold Client.same_id. rewrite Hx, Hid. simpl. rewrite String.eqb_refl. reflexivity.
  - intros p p1 key. unfold Client.addFavorite at 1.
    destruct (Client.type_key item) as [k|e] eqn:Hk; [cbn [bind]|discriminate].
    destruct (Client.index _ k) as [l|] eqn:Hi; [|discriminate].
    destruct (Client.Array_some _ l) as [dup|e] eqn:Hs; [cbn [bind]|discriminate].
    destruct dup.
    { intros E H. injection E as E. subst p1. simpl in H. discriminate H. }
    destruct (5 <=? List.length l).
    { intros E H. injection E as E. subst p1. simpl in H. discriminate H. }
    intros E _. injection E as E. subst p1. unfold Client.addFavorite. rewrite Hk. simpl.
    rewrite loadFavorites_saveFavorites, (index_assign _ _ _ _ Hi).
    rewrite (Array_some_last _ l item); [reflexivity| |].
    + now apply Array_some_false_inv.
    + unfold Client.same_id. rewrite Hid. simpl. rewrite String.eqb_refl. reflexivity.
Qed.

Lemma add_duplicate_rejected_witness :
  Client.addFavorite (sample_item "book" "3") five_books
  = Normal (Client.setStatus "Already in favorites." five_books).
Proof.
  refine (proj1 (add_duplicate_rejected (sample_item "book" "3") "3" eq_refl)
            five_books "book" (map (sample_item "book") ["1"; "2"; "3"; "4"; "5"])
            (sample_item "book" "3") eq_refl _ _ _ eq_refl).
  - vm_compute. reflexivity.
  - repeat constructor; eexists; reflexivity.
  - simpl. auto.
Defined.


Lemma step_within_capacity p a :
  Client.within_capacity (Client.loadFavorites (Client.localStorage p)) ->
  Client.within_capacity (Client.loadFavorites (Client.localStorage (Client.step p a))).
Proof.
  intros Hp. destruct a as [item | type id | ]; unfold Client.step.
  - unfold Client.addFavorite.
    destruct (Client.type_key item) as [key|e]; [cbn [bind]|exact Hp].
    destruct (Client.index _ key) as [l|] eqn:Hi; [|exact Hp].
    destruct (Client.Array_some _ l) as [dup|e]; [cbn [bind]|exact Hp].
    destruct dup; [exact Hp|].
    destruct (5 <=? List.length l) eqn:Hc; [exact Hp|].
    cbn [try_catch Client.setStatus Client.localStorage].
    rewrite loadFavorites_saveFavorites.
    apply Nat.leb_gt in Hc.
    eapply within_capacity_assign; [exact Hp | exact Hi |].
    rewrite length_app. simpl. lia.
  - change (fst (Client.removeFavorite type id p))
      with (Client.step p (Client.Remove type id)).
    rewrite step_remove.
    destruct (Client.index _ type) as [l|] eqn:Hi; [|exact Hp].
    destruct (Client.Array_filter _ l) as [l'|e] eqn:Hf; [|exact Hp].
    cbn [bind try_catch Client.localStorage].
    rewrite loadFavorites_saveFavorites.
    eapply within_capacity_assign; [exact Hp | exact Hi |].
    pose proof (Array_filter_length _ _ _ Hf).
    pose proof (within_capacity_index _ _ _ Hp Hi). lia.
  - unfold Client.clearFavorites, Client.loadFavorites.
    cbn [Client.localStorage]. rewrite lookup_delete_eq.
    unfold Client.within_capacity. simpl. lia.
Qed.

Lemma run_within_capacity actions : forall p,
  Client.within_capacity (Client.loadFavorites (Client.localStorage p)) ->
  Client.within_capacity
    (Client.loadFavorites (Client.localStorage (Client.run p actions))).
Proof.
  induction actions as [|a actions IH]; intros p Hp; [exact Hp|].
  unfold Client.run. cbn [fold_left]. apply IH. now apply step_within_capacity.
Qed.

(** C5 (amended): when the item's category already holds five entries (or
    more) and none of them has a string-equal id, [addFavorite] reports
    [You already have 5 ...s. Remove one first.] and writes nothing, so the
    stored sequence is unchanged; and the bound is an invariant: whatever
    sequence of add, remove and clear is performed, no category exceeds
    five entries if none did before, in particular from an empty
    storage. *)
Theorem add_at_capacity_rejected :
  (forall p item key l,
      Client.type_key item = Normal key ->
      Client.index (Client.loadFavorites (Client.localStorage p)) key = Some l ->
      5 <= List.length l ->
      Forall (fun x => Client.same_id (Client.id_text item) x = Normal false) l ->
      Client.addFavorite item p
      = Normal (Client.setStatus
                  ("You already have 5 " +:+ key +:+ "s. Remove one first.") p)) /\
  (forall p actions,
      Client.within_capacity (Client.loadFavorites (Client.localStorage p)) ->
      Client.within_capacity
        (Client.loadFavorites (Client.localStorage (Client.run p actions)))) /\
  (forall p actions,
      Client.localStorage p !! Client.STORAGE_KEY = None ->
      Client.within_capacity
        (Client.loadFavorites (Client.localStorage (Client.run p actions)))).
Proof.
  split; [|split].
  - intros p item key l Hk Hi Hl Hno. unfold Client.addFavorite.
    rewrite Hk. cbn [bind]. rewrite Hi.
    rewrite (Array_some_none _ l Hno). cbn [bind].
    apply Nat.leb_le in Hl. rewrite Hl. reflexivity.
  - intros p actions. apply run_within_capacity.
  - intros p actions Hp. apply run_within_capacity.
    unfold Client.loadFavorites. rewrite Hp.
    unfold Client.within_capacity. simpl. lia.
Qed.

Lemma add_at_capacity_rejected_witness :
  Client.addFavorite (sample_item "book" "6") five_books
  = Normal (Client.setStatus "You already have 5 books. Remove one first." five_books).
Proof.
  refine (proj1 add_at_capacity_rejected five_books (sample_item "book" "6") "book"
            (map (sample_item "book") ["1"; "2"; "3"; "4"; "5"]) eq_refl _ _ _).
  - vm_compute. reflexivity.
  - simpl. lia.
  - repeat constructor.
Defined.

Lemma setStatus_msg a b (p q : Client.Page) :
  Normal (Client.setStatus a p) = Normal (Client.setStatus b q) -> a = b.
Proof. intros H. injection H as _ H. exact H. Qed.

Lemma add_at_capacity_counterexample :
  Client.index (Client.loadFavorites (Client.localStorage five_books)) "book"
  = Some (map (sample_item "book") ["1"; "2"; "3"; "4"; "5"]) /\
  Client.addFavorite (sample_item "book" "3") five_books
  = Normal (Client.setStatus "Already in favorites." five_books) /\
  Client.addFavorite (sample_item "book" "3") five_books
  <> Normal (Client.setStatus "You already have 5 books. Remove one first." five_books).
Proof.
  assert (E : Client.addFavorite (sample_item "book" "3") five_books
              = Normal (Client.setStatus "Already in favorites." five_books))
    by (vm_compute; reflexivity).
  split; [vm_compute; reflexivity|]. split; [exact E|].
  rewrite E. intros H. apply setStatus_msg in H. discriminate H.
Qed.


(** ** The search endpoints *)

Lemma requireEnv_unset env name :
  Server.env_falsy env name = true ->
  Server.requireEnv env name = Throw (Error ("Missing env var: " +:+ name)).
Proof. unfold Server.requireEnv. intros ->. reflexivity. Qed.

Lemma requireEnv_set env name :
  Server.env_falsy env name = false -> Server.requireEnv env name = Normal tt.
Proof. unfold Server.requireEnv. intros ->. reflexivity. Qed.

(** C7: when the movie API key is unset (or empty) the movie search, and
    when the album token or the album user agent is unset the album search,
    answers 500 with the message naming the missing variable, and no
    request at all has been sent upstream. *)
Theorem missing_credential_no_fetch env req upstream :
  (Server.env_falsy env "TMDB_API_KEY" = true ->
   Server.run upstream (Server.search_movies env req)
   = ([], Normal (config_error "TMDB_API_KEY"))) /\
  (Server.env_falsy env "DISCOGS_TOKEN" = true ->
   Server.run upstream (Server.search_albums env req)
   = ([], Normal (config_error "DISCOGS_TOKEN"))) /\
  (Server.env_falsy env "DISCOGS_TOKEN" = false ->
   Server.env_falsy env "DISCOGS_USER_AGENT" = true ->
   Server.run upstream (Server.search_albums env req)
   = ([], Normal (config_error "DISCOGS_USER_AGENT"))).
Proof.
  split; [|split].
  - intros H. unfold Server.search_movies. rewrite (requireEnv_unset _ _ H). reflexivity.
  - intros H. unfold Server.search_albums. rewrite (requireEnv_unset _ _ H). reflexivity.
  - intros H1 H2. unfold Server.search_albums.
    rewrite (requireEnv_set _ _ H1), (requireEnv_unset _ _ H2). reflexivity.
Qed.

Lemma missing_credential_no_fetch_witness :
  Server.run (answering 200 "{}") (Server.search_movies ∅ (search_request "movies" "batman"))
  = ([], Normal (config_error "TMDB_API_KEY")) /\
  Server.run (answering 200 "{}")
    (Server.search_albums {[ "DISCOGS_TOKEN" := "t" ]} (search_request "albums" "daft punk"))
  = ([], Normal (config_error "DISCOGS_USER_AGENT")).
Proof.
  split.
  - apply (proj1 (missing_credential_no_fetch ∅ (search_request "movies" "batman")
                    (answering 200 "{}"))).
    reflexivity.
  - apply (proj2 (proj2 (missing_credential_no_fetch {[ "DISCOGS_TOKEN" := "t" ]}
                           (search_request "albums" "daft punk") (answering 200 "{}"))));
      reflexivity.
Defined.

(** C4 (amended): a query that is empty after trimming (or absent) is
    answered 400 [Missing query param q] without any upstream request by
    the book search always, and by the movie and album searches when their
    credentials are set: in those two handlers the credential check comes
    first. *)
Theorem empty_query_rejected env req upstream :
  Server.query_text req = "" ->
  Server.run upstream (Server.search_books env req) = ([], Normal Server.missing_query) /\
  (Server.env_falsy env "TMDB_API_KEY" = false ->
   Server.run upstream (Server.search_movies env req)
   = ([], Normal Server.missing_query)) /\
  (Server.env_falsy env "DISCOGS_TOKEN" = false ->
   Server.env_falsy env "DISCOGS_USER_AGENT" = false ->
   Server.run upstream (Server.search_albums env req)
   = ([], Normal Server.missing_query)).
Proof.
  intros Hq. split; [|split].
  - unfold Server.search_books. rewrite Hq. reflexivity.
  - intros H. unfold Server.search_movies. rewrite (requireEnv_set _ _ H), Hq. reflexivity.
  - intros H1 H2. unfold Server.search_albums.
    rewrite (requireEnv_set _ _ H1), (requireEnv_set _ _ H2), Hq. reflexivity.
Qed.

Lemma empty_query_rejected_witness :
  Server.run (answering 200 "{}")
    (Server.search_movies all_credentials (search_request "movies" "   "))
  = ([], Normal Server.missing_query).
Proof.
  apply (proj1 (proj2 (empty_query_rejected all_credentials (search_request "movies" "   ")
                         (answering 200 "{}") eq_refl))).
  reflexivity.
Defined.

Lemma empty_query_counterexample :
  Server.query_text (search_request "movies" "   ") = "" /\
  Server.run (answering 200 "{}") (Server.search_movies ∅ (search_request "movies" "   "))
  = ([], Normal (config_error "TMDB_API_KEY")) /\
  Server.run (answering 200 "{}") (Server.search_movies ∅ (search_request "movies" "   "))
  <> ([], Normal Server.missing_query).
Proof.
  split; [reflexivity|]. split; [reflexivity|]. intros H. discriminate H.
Qed.

Lemma not_ok_not_2xx r :
  Server.ok r = false -> ~ (200 <= Server.up_status r <= 299).
Proof.
  unfold Server.ok. intros H [H1 H2].
  apply Nat.leb_le in H1, H2. rewrite H1, H2 in H. discriminate H.
Qed.

(** C2 (amended): in the album search, with the credentials set and a
    non-empty query, an upstream response with a non-success status is
    answered with that same status (not 500), the error
    [Discogs request failed], the upstream status and, as details, the
    upstream body: parsed when it is JSON, wrapped as [{raw: text}] when it
    is not; that status is outside 200-299, so the answer is never a
    success envelope. *)
Theorem album_upstream_failure env req upstream r :
  Server.env_falsy env "DISCOGS_TOKEN" = false ->
  Server.env_falsy env "DISCOGS_USER_AGENT" = false ->
  Server.query_text req <> "" ->
  (forall rq, upstream rq = Server.Resolved r) ->
  Server.ok r = false ->
  (exists rq,
     Server.run upstream (Server.search_albums env req)
     = ([rq],
        Normal (Server.status_json (Server.up_status r)
                  (Server.Failure (Server.Text "Discogs request failed")
                     (Some (Server.up_status r))
                     (Some match JSON.parse (Server.up_text r) with
                           | Some data => data
                           | None => JObj [("raw", JStr (Server.up_text r))]
                           end))))) /\
  ~ (200 <= Server.up_status r <= 299).
Proof.
  intros H1 H2 Hq Hup Hok. unfold Server.search_albums.
  rewrite (requireEnv_set _ _ H1), (requireEnv_set _ _ H2).
  apply String.eqb_neq in Hq. rewrite Hq.
  unfold Server.fetch. cbn [Server.catch Server.run]. rewrite Hup, Hok.
  cbn [negb Server.catch Server.run].
  split; [eexists; reflexivity | now apply not_ok_not_2xx].
Qed.

Lemma album_upstream_failure_witness :
  (exists rq,
     Server.run (answering 404 "<html>")
       (Server.search_albums all_credentials (search_request "albums" "daft punk"))
     = ([rq],
        Normal (Server.status_json 404
                  (Server.Failure (Server.Text "Discogs request failed")
                     (Some 404) (Some (JObj [("raw", JStr "<html>")])))))) /\
  ~ (200 <= 404 <= 299).
Proof.
  apply (album_upstream_failure all_credentials (search_request "albums" "daft punk")
           (answering 404 "<html>")
           {| Server.up_status := 404; Server.up_text := "<html>" |});
    try reflexivity.
  discriminate.
Defined.

Lemma upstream_failure_counterexample :
  Server.ok {| Server.up_status := 404; Server.up_text := "<html>" |} = false /\
  exists sent r,
    Server.run (answering 404 "<html>")
      (Server.search_albums all_credentials (search_request "albums" "daft punk"))
    = (sent, Normal r) /\ Server.code r = 404 /\ Server.code r <> 500.
Proof.
  split; [reflexivity|]. eexists _, _. split; [vm_compute; reflexivity|].
  split; [reflexivity | discriminate].
Qed.

(** The movie and book handlers do not look at the upstream status. *)
Lemma movies_ignore_upstream_status :
  exists sent,
    Server.run (answering 401 "{}")
      (Server.search_movies all_credentials (search_request "movies" "batman"))
    = (sent, Normal (Server.json (Server.Items []))).
Proof. eexists. vm_compute. reflexivity. Qed.

(** C3: the movie search maps an upstream record without a title to an item
    whose title is [undefined] (absent from the response), not to the
    placeholder that the book and album searches use. *)
Theorem movie_without_title :
  exists sent,
    Server.run (answering 200 untitled_results)
      (Server.search_movies all_credentials (search_request "movies" "matrix"))
    = (sent,
       Normal (Server.json (Server.Items
         [ {| Server.id := Some (JNum 603); Server.type := "movie";
              Server.title := None; Server.subtitle := JStr "";
              Server.image := JStr ""; Server.raw := JObj [("id", JNum 603)] |} ]))).
Proof. eexists. vm_compute. reflexivity. Qed.

Lemma lower_app a b : Server.lower (a +:+ b) = Server.lower a +:+ Server.lower b.
Proof.
  induction a as [|c a IH]; [reflexivity|].
  change (String (Server.to_lower c) (Server.lower (a +:+ b))
          = String (Server.to_lower c) (Server.lower a +:+ Server.lower b)).
  now rewrite IH.
Qed.

Lemma chomp_app a b : b <> "" -> Server.chomp (a +:+ b) = a +:+ Server.chomp b.
Proof.
  intros Hb. induction a as [|c a IH]; [reflexivity|].
  change (Server.chomp (String c (a +:+ b)) = String c (a +:+ Server.chomp b)).
  rewrite <- IH. destruct (a +:+ b) as [|d r] eqn:E; [|reflexivity].
  destruct a; [change (b = EmptyString) in E; congruence | discriminate E].
Qed.

Lemma lower_nonempty s : s <> "" -> Server.lower s <> "".
Proof. destruct s; [congruence | discriminate]. Qed.

Lemma find_route_unknown category :
  Server.chomp (Server.lower category) <> "movies" ->
  Server.chomp (Server.lower category) <> "books" ->
  Server.chomp (Server.lower category) <> "albums" ->
  Server.find_route Server.routes (Client.search_path category) = None.
Proof.
  intros Hm Hb Ha. destruct (String.eqb category "") eqn:E.
  { apply String.eqb_eq in E. subst. reflexivity. }
  apply String.eqb_neq in E.
  unfold Server.routes, Server.find_route, Server.matches, Client.search_path.
  rewrite lower_app, (chomp_app _ _ (lower_nonempty _ E)).
  apply String.eqb_neq in Hm, Hb, Ha.
  change (Server.lower "/api/search/") with ("/api/search/").
  set (c := Server.chomp (Server.lower category)) in *.
  change (String.eqb ("/api/search/" +:+ c) (Server.chomp (Server.lower "/"))) with false.
  change (String.eqb ("/api/search/" +:+ c) (Server.chomp (Server.lower "/api/health")))
    with false.
  change (String.eqb ("/api/search/" +:+ c) (Server.chomp (Server.lower "/api/search/movies")))
    with (String.eqb c "movies").
  change (String.eqb ("/api/search/" +:+ c) (Server.chomp (Server.lower "/api/search/books")))
    with (String.eqb c "books").
  change (String.eqb ("/api/search/" +:+ c) (Server.chomp (Server.lower "/api/search/albums")))
    with (String.eqb c "albums").
  rewrite Hm, Hb, Ha. reflexivity.
Qed.

(** C1 (amended): a request for a category that, compared as the router
    compares paths (ignoring case and one trailing slash), is none of
    [movies], [books], [albums] matches no route: it is answered 404 and
    no handler runs, whatever the configuration.  Only the client's
    [mapCategoryToFavType] maps such a category to [album]. *)
Theorem unknown_category_not_routed category :
  Server.chomp (Server.lower category) <> "movies" ->
  Server.chomp (Server.lower category) <> "books" ->
  Server.chomp (Server.lower category) <> "albums" ->
  Server.find_route Server.routes (Client.search_path category) = None /\
  (forall env q upstream,
      Server.run upstream
        (Server.handle env {| Server.path := Client.search_path category;
                              Server.query_q := q |})
      = ([], Normal (Server.status_json 404 Server.NotFound))) /\
  Client.mapCategoryToFavType category = "album".
Proof.
  intros Hm Hb Ha. pose proof (find_route_unknown category Hm Hb Ha) as Hr.
  split; [exact Hr|]. split.
  - intros env q upstream. unfold Server.handle. cbn [Server.path]. rewrite Hr. reflexivity.
  - unfold Client.mapCategoryToFavType.
    destruct (String.eqb category "movies") eqn:E1.
    { apply String.eqb_eq in E1. subst. contradiction Hm. reflexivity. }
    destruct (String.eqb category "books") eqn:E2.
    { apply String.eqb_eq in E2. subst. contradiction Hb. reflexivity. }
    reflexivity.
Qed.

Lemma unknown_category_not_routed_witness :
  Server.find_route Server.routes (Client.search_path "games") = None /\
  (forall env q upstream,
      Server.run upstream
        (Server.handle env {| Server.path := Client.search_path "games";
                              Server.query_q := q |})
      = ([], Normal (Server.status_json 404 Server.NotFound))) /\
  Client.mapCategoryToFavType "games" = "album".
Proof.
  apply (unknown_category_not_routed "games"); discriminate.
Defined.

Lemma unknown_category_counterexample :
  Server.find_route Server.routes (Client.search_path "games") <> Some Server.SearchAlbums /\
  Server.run (answering 200 "{}")
    (Server.handle all_credentials (search_request "games" "zelda"))
  = ([], Normal (Server.status_json 404 Server.NotFound)).
Proof. split; [discriminate | reflexivity]. Qed.

(** * Further properties of the code *)

(** ** More on the favourites store *)

Lemma index_assign_other favs key key' l :
  key' <> key -> Client.index (Client.assign favs key l) key' = Client.index favs key'.
Proof.
  intros Hne. unfold Client.index, Client.assign.
  destruct (String.eqb key "movie") eqn:E1; [apply String.eqb_eq in E1|];
    [|destruct (String.eqb key "book") eqn:E2; [apply String.eqb_eq in E2|];
      [|destruct (String.eqb key "album") eqn:E3; [apply String.eqb_eq in E3|]]];
    subst; cbn [Client.movie Client.book Client.album]; try reflexivity.
  - destruct (String.eqb key' "movie") eqn:E; [apply String.eqb_eq in E; congruence|].
    reflexivity.
  - destruct (String.eqb key' "movie"); [reflexivity|].
    destruct (String.eqb key' "book") eqn:E; [apply String.eqb_eq in E; congruence|].
    reflexivity.
  - destruct (String.eqb key' "movie"); [reflexivity|].
    destruct (String.eqb key' "book"); [reflexivity|].
    destruct (String.eqb key' "album") eqn:E; [apply String.eqb_eq in E; congruence|].
    reflexivity.
Qed.

Lemma assign_assign favs key l l' :
  Client.assign (Client.assign favs key l) key l' = Client.assign favs key l'.
Proof.
  unfold Client.assign.
  destruct (String.eqb key "movie"); [reflexivity|].
  destruct (String.eqb key "book"); [reflexivity|].
  destruct (String.eqb key "album"); reflexivity.
Qed.

(** X1: what [saveFavorites] writes, [loadFavorites] reads back exactly,
    whatever the storage held before; and saving touches no other key of
    the storage. *)
Theorem save_then_load favs (store : gmap string string) :
  Client.loadFavorites (Client.saveFavorites favs store) = favs /\
  (forall k, k <> Client.STORAGE_KEY -> Client.saveFavorites favs store !! k = store !! k).
Proof.
  split; [apply loadFavorites_saveFavorites|].
  intros k Hk. unfold Client.saveFavorites. now apply lookup_insert_ne.
Qed.

(** X2: an item whose category holds fewer than five entries, none of them
    with a string-equal id, is appended at the end of that category: the
    status line reports [Added to ... favorites.], the category read back
    is the old one followed by the item, and the other categories are
    unchanged. *)
Theorem add_appends p item key l :
  Client.type_key item = Normal key ->
  Client.index (Client.loadFavorites (Client.localStorage p)) key = Some l ->
  List.length l < 5 ->
  Forall (fun x => Client.same_id (Client.id_text item) x = Normal false) l ->
  exists p',
    Client.addFavorite item p = Normal p' /\
    Client.status p' = "Added to " +:+ key +:+ " favorites." /\
    Client.index (Client.loadFavorites (Client.localStorage p')) key = Some (l ++ [item]) /\
    (forall k, k <> key ->
       Client.index (Client.loadFavorites (Client.localStorage p')) k
       = Client.index (Client.loadFavorites (Client.localStorage p)) k).
Proof.
  intros Hk Hi Hl Hno. unfold Client.addFavorite. rewrite Hk. cbn [bind]. rewrite Hi.
  rewrite (Array_some_none _ l Hno). cbn [bind].
  apply Nat.leb_gt in Hl. rewrite Hl.
  eexists. split; [reflexivity|].
  cbn [Client.setStatus Client.status Client.localStorage].
  rewrite loadFavorites_saveFavorites. split; [reflexivity|]. split.
  - exact (index_assign _ _ _ _ Hi).
  - intros k Hne. now apply index_assign_other.
Qed.

Lemma add_appends_witness :
  exists p',
    Client.addFavorite (sample_item "book" "6") (Client.run five_books [Client.Remove "book" (JStr "2")])
    = Normal p' /\
    Client.status p' = "Added to book favorites." /\
    Client.index (Client.loadFavorites (Client.localStorage p')) "book"
    = Some (map (sample_item "book") ["1"; "3"; "4"; "5"] ++ [sample_item "book" "6"]) /\
    (forall k, k <> "book" ->
       Client.index (Client.loadFavorites (Client.localStorage p')) k
       = Client.index (Client.loadFavorites (Client.localStorage
           (Client.run five_books [Client.Remove "book" (JStr "2")]))) k).
Proof.
  refine (add_appends (Client.run five_books [Client.Remove "book" (JStr "2")])
            (sample_item "book" "6") "book"
            (map (sample_item "book") ["1"; "3"; "4"; "5"]) eq_refl _ _ _).
  - vm_compute. reflexivity.
  - simpl. lia.
  - repeat constructor.
Defined.

Lemma step_other_keys p a k :
  k <> Client.STORAGE_KEY ->
  Client.localStorage (Client.step p a) !! k = Client.localStorage p !! k.
Proof.
  intros Hk. destruct a as [item | type id | ]; unfold Client.step.
  - unfold Client.addFavorite.
    destruct (Client.type_key item) as [key|e]; [cbn [bind]|reflexivity].
    destruct (Client.index _ key) as [l|]; [|reflexivity].
    destruct (Client.Array_some _ l) as [dup|e]; [cbn [bind]|reflexivity].
    destruct dup; [reflexivity|].
    destruct (5 <=? List.length l); [reflexivity|].
    cbn [try_catch Client.setStatus Client.localStorage].
    unfold Client.saveFavorites. now apply lookup_insert_ne.
  - change (fst (Client.removeFavorite type id p))
      with (Client.step p (Client.Remove type id)).
    rewrite step_remove.
    destruct (Client.index _ type) as [l|]; [|reflexivity].
    destruct (Client.Array_filter _ l) as [l'|e]; [|reflexivity].
    cbn [bind try_catch Client.localStorage].
    unfold Client.saveFavorites. now apply lookup_insert_ne.
  - unfold Client.clearFavorites. cbn [Client.localStorage]. now apply lookup_delete_ne.
Qed.

(** X3: no sequence of add, remove and clear changes any key of
    [localStorage] other than the favourites key. *)
Theorem other_keys_untouched p actions k :
  k <> Client.STORAGE_KEY ->
  Client.localStorage (Client.run p actions) !! k = Client.localStorage p !! k.
Proof.
  intros Hk. revert p. induction actions as [|a actions IH]; intros p; [reflexivity|].
  unfold Client.run. cbn [fold_left]. fold (Client.run (Client.step p a) actions).
  rewrite IH. now apply step_other_keys.
Qed.

Lemma other_keys_untouched_witness :
  Client.localStorage
    (Client.run {| Client.localStorage := {[ "theme" := "dark" ]}; Client.status := "" |}
       [Client.Add (sample_item "movie" "603"); Client.Clear]) !! "theme"
  = Client.localStorage
      {| Client.localStorage := {[ "theme" := "dark" ]}; Client.status := "" |} !! "theme".
Proof.
  apply (other_keys_untouched
           {| Client.localStorage := {[ "theme" := "dark" ]}; Client.status := "" |}
           [Client.Add (sample_item "movie" "603"); Client.Clear] "theme").
  discriminate.
Defined.

Lemma same_id_has_id s x t :
  Client.id_text x = Normal t ->
  Client.same_id (Normal s) x = Normal (Client.has_id s x).
Proof. unfold Client.same_id, Client.has_id. intros ->. reflexivity. Qed.

Lemma Array_filter_other_id id s l :
  String_ (Some id) = Normal s ->
  Forall (fun y => exists t, Client.id_text y = Normal t) l ->
  Client.Array_filter (Client.other_id id) l
  = Normal (List.filter (fun x => negb (Client.has_id s x)) l).
Proof.
  intros Hs. induction 1 as [|y l [t Ht] _ IH]; [reflexivity|].
  cbn [Client.Array_filter List.filter]. unfold Client.other_id at 1.
  rewrite Hs, (same_id_has_id s y t Ht). cbn [bind]. rewrite IH. cbn [bind].
  destruct (Client.has_id s y); reflexivity.
Qed.

(** X4: in a collection of media items, [removeFavorite] returns without
    raising, having dropped all the entries of the category whose id text
    equals that of the given id (whatever its native type) and kept the
    others in their order; the other categories are unchanged. *)
Theorem remove_drops_matching p type id s l :
  Client.index (Client.loadFavorites (Client.localStorage p)) type = Some l ->
  String_ (Some id) = Normal s ->
  Forall (fun y => exists t, Client.id_text y = Normal t) l ->
  Client.media_items (Client.loadFavorites (Client.localStorage p)) ->
  exists p' cards,
    Client.removeFavorite type id p = (p', Normal cards) /\
    Client.index (Client.loadFavorites (Client.localStorage p')) type
    = Some (List.filter (fun x => negb (Client.has_id s x)) l) /\
    (forall k, k <> type ->
       Client.index (Client.loadFavorites (Client.localStorage p')) k
       = Client.index (Client.loadFavorites (Client.localStorage p)) k).
Proof.
  intros Hi Hs Hl Hw. unfold Client.removeFavorite. rewrite Hi.
  pose proof (Array_filter_other_id id s l Hs Hl) as Hf. rewrite Hf.
  cbn [Client.localStorage].
  match goal with
  | |- context [Client.renderFavorites ?st] =>
      destruct (renderFavorites_media_items st) as [cards ->]
  end.
  { rewrite loadFavorites_saveFavorites. apply media_items_assign; [exact Hw|].
    exact (Array_filter_keeps _ _ _ _ Hf (media_items_index _ _ _ Hw Hi)). }
  eexists _, cards. split; [reflexivity|]. cbn [Client.localStorage].
  rewrite loadFavorites_saveFavorites. split.
  - exact (index_assign _ _ _ _ Hi).
  - intros k Hne. now apply index_assign_other.
Qed.

Lemma remove_drops_matching_witness :
  exists p' cards,
    Client.removeFavorite "book" (JNum 2) five_books = (p', Normal cards) /\
    Client.index (Client.loadFavorites (Client.localStorage p')) "book"
    = Some (List.filter (fun x => negb (Client.has_id "2" x))
              (map (sample_item "book") ["1"; "2"; "3"; "4"; "5"])) /\
    (forall k, k <> "book" ->
       Client.index (Client.loadFavorites (Client.localStorage p')) k
       = Client.index (Client.loadFavorites (Client.localStorage five_books)) k).
Proof.
  refine (remove_drops_matching five_books "book" (JNum 2) "2"
            (map (sample_item "book") ["1"; "2"; "3"; "4"; "5"]) _ eq_refl _ _).
  - vm_compute. reflexivity.
  - repeat constructor; eexists; reflexivity.
  - vm_compute. repeat split; repeat constructor.
Defined.

Lemma Array_filter_app f l1 l2 r1 r2 :
  Client.Array_filter f l1 = Normal r1 -> Client.Array_filter f l2 = Normal r2 ->
  Client.Array_filter f (l1 ++ l2) = Normal (r1 ++ r2).
Proof.
  revert r1. induction l1 as [|x l1 IH]; intros r1 H1 H2.
  - injection H1 as <-. exact H2.
  - cbn [Client.Array_filter app] in *.
    destruct (f x) as [b|e]; cbn [bind] in *; [|discriminate].
    destruct (Client.Array_filter f l1) as [r|e]; cbn [bind] in *; [|discriminate].
    injection H1 as <-. rewrite (IH r eq_refl H2). cbn [bind].
    destruct b; reflexivity.
Qed.

Lemma id_text_get item idv :
  get item "id" = Normal (Some idv) -> Client.id_text item = String_ (Some idv).
Proof. unfold Client.id_text. intros ->. reflexivity. Qed.

Lemma append_cancel_l a x y : a +:+ x = a +:+ y -> x = y.
Proof.
  induction a as [|c a IH]; intros H; [exact H|].
  change (String c (a +:+ x) = String c (a +:+ y)) in H. injection H as H. auto.
Qed.

Lemma append_cancel_r t : forall a b, a +:+ t = b +:+ t -> a = b.
Proof.
  induction a as [|c a IH]; intros [|d b] H.
  - reflexivity.
  - exfalso. apply (f_equal String.length) in H.
    change (String d b +:+ t) with (String d (b +:+ t)) in H.
    change ("" +:+ t) with t in H. cbn [String.length] in H.
    rewrite length_append in H. lia.
  - exfalso. apply (f_equal String.length) in H.
    change (String c a +:+ t) with (String c (a +:+ t)) in H.
    change ("" +:+ t) with t in H. cbn [String.length] in H.
    rewrite length_append in H. lia.
  - change (String c (a +:+ t) = String d (b +:+ t)) in H.
    injection H as -> H. f_equal. auto.
Qed.

(** X5: in a collection of media items, removing an item right after an
    add of it that succeeded returns without raising and gives back the
    collection as it was before the add. *)
Theorem add_then_remove p item key idv s p1 :
  get item "id" = Normal (Some idv) ->
  Client.id_text item = Normal s ->
  Client.addFavorite item p = Normal p1 ->
  Client.status p1 = "Added to " +:+ key +:+ " favorites." ->
  Client.media_items (Client.loadFavorites (Client.localStorage p)) ->
  exists p2 cards,
    Client.removeFavorite key idv p1 = (p2, Normal cards) /\
    Client.loadFavorites (Client.localStorage p2)
    = Client.loadFavorites (Client.localStorage p).
Proof.
  intros Hg Hid E H Hw. revert E H. unfold Client.addFavorite.
  destruct (Client.type_key item) as [k|e] eqn:Hk; [cbn [bind]|discriminate].
  destruct (Client.index _ k) as [l|] eqn:Hi; [|discriminate].
  destruct (Client.Array_some _ l) as [dup|e] eqn:Hs; [cbn [bind]|discriminate].
  destruct dup.
  { intros E H. injection E as E. subst p1. discriminate H. }
  destruct (5 <=? List.length l).
  { intros E H. injection E as E. subst p1. discriminate H. }
  intros E H. injection E as E. subst p1.
  cbn [Client.setStatus Client.status] in H.
  apply append_cancel_l, append_cancel_r in H. subst k.
  unfold Client.removeFavorite. cbn [Client.setStatus Client.localStorage].
  rewrite loadFavorites_saveFavorites, (index_assign _ _ _ _ Hi).
  rewrite (Array_filter_app (Client.other_id idv) l [item] l []).
  - rewrite List.app_nil_r, assign_assign, (assign_same _ _ _ Hi).
    cbn [Client.localStorage].
    match goal with
    | |- context [Client.renderFavorites ?st] =>
        destruct (renderFavorites_media_items st) as [cards ->]
    end.
    { now rewrite loadFavorites_saveFavorites. }
    eexists _, cards. split; [reflexivity|]. cbn [Client.localStorage].
    now rewrite loadFavorites_saveFavorites.
  - apply Array_filter_all. apply Array_some_false_inv in Hs.
    eapply Forall_impl; [exact Hs|]. intros x Hx. cbn beta in Hx.
    unfold Client.other_id. rewrite <- (id_text_get _ _ Hg), Hx. reflexivity.
  - cbn [Client.Array_filter]. unfold Client.other_id, Client.same_id.
    rewrite <- (id_text_get _ _ Hg), Hid. cbn [bind]. rewrite String.eqb_refl. reflexivity.
Qed.

Lemma add_then_remove_witness :
  exists p2 cards,
    Client.removeFavorite "album" (JStr "77")
      (Client.run empty_page [Client.Add (sample_item "album" "77")])
    = (p2, Normal cards) /\
    Client.loadFavorites (Client.localStorage p2)
    = Client.loadFavorites (Client.localStorage empty_page).
Proof.
  apply (add_then_remove empty_page (sample_item "album" "77") "album" (JStr "77") "77");
    try reflexivity.
  repeat split; constructor.
Defined.

(** X6: an item whose type is none of [movie], [book], [album] (for
    instance an item with no type) makes [addFavorite] raise a
    [TypeError]; nothing is written and the page is left as it was. *)
Theorem add_unknown_type item key p :
  Client.type_key item = Normal key ->
  key <> "movie" -> key <> "book" -> key <> "album" ->
  Client.addFavorite item p = Throw TypeError /\
  Client.step p (Client.Add item) = p.
Proof.
  intros Hk H1 H2 H3.
  assert (E : Client.addFavorite item p = Throw TypeError).
  { unfold Client.addFavorite. rewrite Hk. cbn [bind]. unfold Client.index.
    apply String.eqb_neq in H1, H2, H3. rewrite H1, H2, H3. reflexivity. }
  split; [exact E|]. unfold Client.step. rewrite E. reflexivity.
Qed.

Lemma add_unknown_type_witness :
  Client.addFavorite (JObj [("id", JStr "9")]) five_books = Throw TypeError /\
  Client.step five_books (Client.Add (JObj [("id", JStr "9")])) = five_books.
Proof.
  apply (add_unknown_type (JObj [("id", JStr "9")]) "undefined"); [reflexivity | discriminate ..].
Defined.

(** *** No two entries with the same id *)

Lemma unique_ids_snoc item l :
  Client.unique_ids l ->
  Forall (fun x => Client.same_id (Client.id_text item) x = Normal false) l ->
  Client.unique_ids (l ++ [item]).
Proof.
  unfold Client.unique_ids. intros Hu Hno.
  induction l as [|x l IH]; cbn [app].
  - constructor; constructor.
  - inversion Hu as [|? ? Hx Hl]; subst. inversion Hno as [|? ? Hnx Hnl]; subst.
    constructor; [|now apply IH].
    apply Forall_app. split; [exact Hx|]. constructor; [|constructor].
    intros s Hs Hi. unfold Client.same_id in Hnx. rewrite Hs, Hi in Hnx.
    cbn [bind] in Hnx. rewrite String.eqb_refl in Hnx. discriminate Hnx.
Qed.

Lemma Array_filter_Forall (P : value -> Prop) f l l' :
  Client.Array_filter f l = Normal l' -> Forall P l -> Forall P l'.
Proof.
  revert l'. induction l as [|x l IH]; cbn [Client.Array_filter]; intros l' H HP.
  - injection H as <-. constructor.
  - inversion HP as [|? ? Hx Hl]; subst.
    destruct (f x) as [b|e]; cbn [bind] in H; [|discriminate].
    destruct (Client.Array_filter f l) as [r|e]; cbn [bind] in H; [|discriminate].
    injection H as <-. specialize (IH r eq_refl Hl).
    destruct b; [constructor; assumption | assumption].
Qed.

Lemma unique_ids_filter f l l' :
  Client.Array_filter f l = Normal l' -> Client.unique_ids l -> Client.unique_ids l'.
Proof.
  unfold Client.unique_ids.
  revert l'. induction l as [|x l IH]; cbn [Client.Array_filter]; intros l' H Hu.
  - injection H as <-. constructor.
  - inversion Hu as [|? ? Hx Hl]; subst.
    destruct (f x) as [b|e]; cbn [bind] in H; [|discriminate].
    destruct (Client.Array_filter f l) as [r|e] eqn:Hf; cbn [bind] in H; [|discriminate].
    injection H as <-. specialize (IH r eq_refl Hl).
    destruct b; [|exact IH].
    constructor; [|exact IH]. exact (Array_filter_Forall _ f l r Hf Hx).
Qed.

Lemma all_unique_assign favs key l l0 :
  Client.all_unique favs -> Client.index favs key = Some l0 ->
  Client.unique_ids l -> Client.all_unique (Client.assign favs key l).
Proof.
  unfold Client.all_unique, Client.index, Client.assign.
  destruct favs as [m b a]; cbn [Client.movie Client.book Client.album].
  intros (Hm & Hb & Ha) Hi Hl.
  destruct (String.eqb key "movie"); [cbn; auto|].
  destruct (String.eqb key "book"); [cbn; auto|].
  destruct (String.eqb key "album"); [cbn; auto|].
  discriminate.
Qed.

Lemma all_unique_index favs key l :
  Client.all_unique favs -> Client.index favs key = Some l -> Client.unique_ids l.
Proof.
  unfold Client.all_unique, Client.index.
  destruct favs as [m b a]; cbn [Client.movie Client.book Client.album].
  intros (Hm & Hb & Ha).
  destruct (String.eqb key "movie"); [intros [= <-]; assumption|].
  destruct (String.eqb key "book"); [intros [= <-]; assumption|].
  destruct (String.eqb key "album"); [intros [= <-]; assumption|].
  discriminate.
Qed.

Lemma all_unique_empty : Client.all_unique Client.no_favorites.
Proof. repeat split; constructor. Qed.

Lemma step_all_unique p a :
  Client.all_unique (Client.loadFavorites (Client.localStorage p)) ->
  Client.all_unique (Client.loadFavorites (Client.localStorage (Client.step p a))).
Proof.
  intros Hp. destruct a as [item | type id | ]; unfold Client.step.
  - unfold Client.addFavorite.
    destruct (Client.type_key item) as [key|e]; [cbn [bind]|exact Hp].
    destruct (Client.index _ key) as [l|] eqn:Hi; [|exact Hp].
    destruct (Client.Array_some _ l) as [dup|e] eqn:Hs; [cbn [bind]|exact Hp].
    destruct dup; [exact Hp|].
    destruct (5 <=? List.length l); [exact Hp|].
    cbn [try_catch Client.setStatus Client.localStorage].
    rewrite loadFavorites_saveFavorites.
    eapply all_unique_assign; [exact Hp | exact Hi |].
    apply unique_ids_snoc; [exact (all_unique_index _ _ _ Hp Hi)|].
    now apply Array_some_false_inv.
  - change (fst (Client.removeFavorite type id p))
      with (Client.step p (Client.Remove type id)).
    rewrite step_remove.
    destruct (Client.index _ type) as [l|] eqn:Hi; [|exact Hp].
    destruct (Client.Array_filter _ l) as [l'|e] eqn:Hf; [|exact Hp].
    cbn [bind try_catch Client.localStorage].
    rewrite loadFavorites_saveFavorites.
    eapply all_unique_assign; [exact Hp | exact Hi |].
    exact (unique_ids_filter _ _ _ Hf (all_unique_index _ _ _ Hp Hi)).
  - unfold Client.clearFavorites, Client.loadFavorites.
    cbn [Client.localStorage]. rewrite lookup_delete_eq. apply all_unique_empty.
Qed.

(** X7: uniqueness is an invariant of the store: if no category holds two
    entries with the same id text, no sequence of add, remove and clear
    produces one that does. *)
Theorem ids_stay_unique p actions :
  Client.all_unique (Client.loadFavorites (Client.localStorage p)) ->
  Client.all_unique (Client.loadFavorites (Client.localStorage (Client.run p actions))).
Proof.
  revert p. induction actions as [|a actions IH]; intros p Hp; [exact Hp|].
  unfold Client.run. cbn [fold_left]. apply IH. now apply step_all_unique.
Qed.

Lemma ids_stay_unique_witness :
  Client.all_unique
    (Client.loadFavorites
       (Client.localStorage
          (Client.run empty_page
             [Client.Add (sample_item "book" "1"); Client.Add (sample_item "book" "1");
              Client.Add (sample_item "book" "2"); Client.Remove "book" (JStr "1")]))).
Proof.
  apply (ids_stay_unique empty_page). apply all_unique_empty.
Defined.

(** ** [escapeHtml] *)

Lemma append_assoc (a b c : string) : (a +:+ b) +:+ c = a +:+ (b +:+ c).
Proof.
  induction a as [|x a IH]; [reflexivity|].
  change (String x ((a +:+ b) +:+ c) = String x (a +:+ (b +:+ c))). now rewrite IH.
Qed.

Lemma replaceAll_app p r a b :
  replaceAll p r (a +:+ b) = replaceAll p r a +:+ replaceAll p r b.
Proof.
  induction a as [|c a IH]; [reflexivity|].
  change (String c a +:+ b) with (String c (a +:+ b)).
  cbn [replaceAll]. rewrite IH. destruct (Ascii.eqb c p).
  - now rewrite append_assoc.
  - reflexivity.
Qed.

Lemma replacements_app a b : replacements (a +:+ b) = replacements a +:+ replacements b.
Proof. unfold replacements. now rewrite !replaceAll_app. Qed.

Lemma replacements_single c : replacements (String c "") = Client.entity c.
Proof. destruct c as [[] [] [] [] [] [] [] []]; reflexivity. Qed.

Lemma replacements_entities s : replacements s = Client.entities s.
Proof.
  induction s as [|c s IH]; [reflexivity|].
  change (String c s) with (String c "" +:+ s).
  rewrite replacements_app, replacements_single, IH. reflexivity.
Qed.

(** X8: [escapeHtml] works character by character: each of [&], [<], [>],
    the double quote and the apostrophe becomes its entity and every other
    character is kept, so the ampersand of an entity is never escaped a
    second time. *)
Theorem escapeHtml_entities str s :
  String_ str = Normal s ->
  Client.escapeHtml str = Normal (Client.entities s).
Proof.
  intros H. unfold Client.escapeHtml. rewrite H. cbn [bind].
  f_equal. apply replacements_entities.
Qed.

Lemma escapeHtml_entities_witness :
  Client.escapeHtml (Some (JStr "Tom & <Jerry>"))
  = Normal (Client.entities "Tom & <Jerry>").
Proof. apply escapeHtml_entities. reflexivity. Defined.

Lemma occurs_app c a b : Client.occurs c (a +:+ b) = Client.occurs c a || Client.occurs c b.
Proof.
  induction a as [|d a IH]; [reflexivity|].
  change (String d a +:+ b) with (String d (a +:+ b)).
  cbn [Client.occurs]. rewrite IH. now rewrite orb_assoc.
Qed.

Lemma occurs_entity c d : markup c = true -> Client.occurs c (Client.entity d) = false.
Proof.
  intros Hc.
  assert (Hcase : c = "<"%char \/ c = ">"%char \/ c = JSON.DQUOTE \/ c = "'"%char).
  { unfold markup in Hc.
    repeat (apply orb_true_iff in Hc as [Hc|Hc]); apply Ascii.eqb_eq in Hc; auto. }
  destruct Hcase as [ -> | [ -> | [ -> | -> ] ] ];
    destruct d as [[] [] [] [] [] [] [] []]; reflexivity.
Qed.

(** X9: the text [escapeHtml] returns contains no [<], no [>], no double
    quote and no apostrophe. *)
Theorem escapeHtml_no_markup str out c :
  Client.escapeHtml str = Normal out ->
  markup c = true ->
  Client.occurs c out = false.
Proof.
  unfold Client.escapeHtml. destruct (String_ str) as [s|e]; [cbn [bind]|discriminate].
  intros H Hc. injection H as <-. fold (replacements s). rewrite replacements_entities.
  induction s as [|d s IH]; [reflexivity|].
  cbn [Client.entities]. rewrite occurs_app, IH, (occurs_entity c d Hc). reflexivity.
Qed.

Lemma escapeHtml_no_markup_witness :
  Client.occurs "<" (Client.entities "<b>Tom & Jerry</b>") = false.
Proof.
  apply (escapeHtml_no_markup (Some (JStr "<b>Tom & Jerry</b>"))); reflexivity.
Defined.


(** ** More on the search endpoints *)

Lemma bind_Normal {A B} (c : completion A) (k : A -> completion B) b :
  bind c k = Normal b -> exists a, c = Normal a /\ k a = Normal b.
Proof. destruct c as [a|e]; [eauto | discriminate]. Qed.

Ltac bind_inv H :=
  let a := fresh "a" in
  let Ha := fresh "Ha" in
  apply bind_Normal in H as (a & Ha & H).

Lemma Array_map_Forall {B} (P : B -> Prop) (f : value -> completion B) l r :
  (forall x y, f x = Normal y -> P y) ->
  Server.Array_map f l = Normal r -> Forall P r /\ List.length r = List.length l.
Proof.
  intros Hf. revert r. induction l as [|x l IH]; cbn [Server.Array_map]; intros r H.
  - injection H as <-. split; [constructor | reflexivity].
  - bind_inv H. bind_inv H. injection H as <-.
    destruct (IH _ Ha0) as [IH1 IH2]. split; [constructor; eauto | cbn; lia].
Qed.

Lemma slice20_map_Forall {B} (P : B -> Prop) (f : value -> completion B) xs r :
  (forall x y, f x = Normal y -> P y) ->
  Server.slice20_map f xs = Normal r -> Forall P r /\ List.length r <= 20.
Proof.
  intros Hf H. destruct xs; try discriminate H. cbn [Server.slice20_map] in H.
  destruct (Array_map_Forall P f _ _ Hf H) as [H1 H2]. split; [exact H1|].
  rewrite H2. unfold Array_slice0. rewrite length_firstn. lia.
Qed.

Lemma truthy_or_else a b : truthy (Some b) = true -> truthy (Some (or_else a b)) = true.
Proof.
  intros Hb. unfold or_else. destruct a as [v|]; [|exact Hb].
  destruct (truthy (Some v)) eqn:E; assumption.
Qed.

Lemma movie_item_type m it : Server.movie_item m = Normal it -> Server.type it = "movie".
Proof.
  unfold Server.movie_item. intros H. repeat bind_inv H. injection H as <-. reflexivity.
Qed.

Lemma book_item_spec b it :
  Server.book_item b = Normal it -> Server.type it = "book" /\ titled it.
Proof.
  unfold Server.book_item. intros H. repeat bind_inv H. injection H as <-.
  split; [reflexivity|]. eexists. split; [reflexivity|]. now apply truthy_or_else.
Qed.

Lemma album_item_spec a it :
  Server.album_item a = Normal it -> Server.type it = "album" /\ titled it.
Proof.
  unfold Server.album_item. intros H. repeat bind_inv H. injection H as <-.
  split; [reflexivity|]. eexists. split; [reflexivity|]. now apply truthy_or_else.
Qed.

Lemma answers_failure P sent c msg st d :
  List.length sent <= 1 ->
  answers P (sent, Normal (Server.status_json c (Server.Failure msg st d))).
Proof. intros Hs. eexists _, _. split; [reflexivity|]. split; [exact Hs|]. discriminate. Qed.

Lemma answers_lift P rq (c : completion Server.Response) :
  (forall r, c = Normal r ->
     forall items, Server.body r = Server.Items items ->
       Server.code r = 200 /\ List.length items <= 20 /\ Forall P items) ->
  answers P
    (let (sent, result) :=
       Server.run (fun _ => Server.Rejected)
         (Server.catch (Server.lift c) Server.internal_error) in
     (rq :: sent, result)).
Proof.
  intros H. destruct c as [r|e]; cbn.
  - eexists _, _. split; [reflexivity|]. split; [cbn; lia|]. now apply H.
  - apply answers_failure. cbn. lia.
Qed.

Lemma run_lift {A} upstream upstream' (c : completion A) h :
  (forall e, exists a, h e = Server.Ret a) ->
  Server.run upstream (Server.catch (Server.lift c) h)
  = Server.run upstream' (Server.catch (Server.lift c) h).
Proof.
  intros Hh. destruct c as [a|e]; [reflexivity|]. cbn. destruct (Hh e) as [a ->]. reflexivity.
Qed.

Lemma search_movies_answers env req upstream :
  answers (fun it => Server.type it = "movie")
    (Server.run upstream (Server.search_movies env req)).
Proof.
  unfold Server.search_movies.
  destruct (Server.requireEnv env "TMDB_API_KEY") as [[]|e];
    [|apply answers_failure; cbn; lia].
  destruct (String.eqb (Server.query_text req) ""); [apply answers_failure; cbn; lia|].
  unfold Server.fetch. cbn [Server.catch Server.run].
  match goal with |- context [upstream ?rq] => destruct (upstream rq) as [|r] end;
    [apply answers_failure; cbn; lia|].
  match goal with
  | |- answers _ (let (_, _) := Server.run _ (Server.catch (Server.lift ?c) _) in _) =>
      rewrite (run_lift upstream (fun _ => Server.Rejected) c Server.internal_error)
        by (intros e; eexists; reflexivity);
      apply answers_lift
  end.
  intros r0 H items Hb. repeat bind_inv H. injection H as <-.
  cbn in Hb. injection Hb as <-.
  destruct (slice20_map_Forall (fun it => Server.type it = "movie") _ _ _ movie_item_type Ha1)
    as [H1 H2].
  auto.
Qed.

Lemma search_books_answers env req upstream :
  answers (fun it => Server.type it = "book" /\ titled it)
    (Server.run upstream (Server.search_books env req)).
Proof.
  unfold Server.search_books.
  destruct (String.eqb (Server.query_text req) ""); [apply answers_failure; cbn; lia|].
  unfold Server.fetch. cbn [Server.catch Server.run].
  match goal with |- context [upstream ?rq] => destruct (upstream rq) as [|r] end;
    [apply answers_failure; cbn; lia|].
  match goal with
  | |- answers _ (let (_, _) := Server.run _ (Server.catch (Server.lift ?c) _) in _) =>
      rewrite (run_lift upstream (fun _ => Server.Rejected) c Server.internal_error)
        by (intros e; eexists; reflexivity);
      apply answers_lift
  end.
  intros r0 H items Hb. repeat bind_inv H. injection H as <-.
  cbn in Hb. injection Hb as <-.
  destruct (slice20_map_Forall _ _ _ _ book_item_spec Ha1) as [H1 H2].
  auto.
Qed.

Lemma search_albums_answers env req upstream :
  answers (fun it => Server.type it = "album" /\ titled it)
    (Server.run upstream (Server.search_albums env req)).
Proof.
  unfold Server.search_albums.
  destruct (Server.requireEnv env "DISCOGS_TOKEN") as [[]|e];
    [|apply answers_failure; cbn; lia].
  destruct (Server.requireEnv env "DISCOGS_USER_AGENT") as [[]|e];
    [|apply answers_failure; cbn; lia].
  destruct (String.eqb (Server.query_text req) ""); [apply answers_failure; cbn; lia|].
  unfold Server.fetch. cbn [Server.catch Server.run].
  match goal with |- context [upstream ?rq] => destruct (upstream rq) as [|r] end;
    [apply answers_failure; cbn; lia|].
  destruct (Server.ok r); cbn [negb]; [|apply answers_failure; cbn; lia].
  match goal with
  | |- answers _ (let (_, _) := Server.run _ (Server.catch (Server.lift ?c) _) in _) =>
      rewrite (run_lift upstream (fun _ => Server.Rejected) c Server.internal_error)
        by (intros e; eexists; reflexivity);
      apply answers_lift
  end.
  intros r0 H items Hb. repeat bind_inv H. injection H as <-.
  cbn in Hb. injection Hb as <-.
  destruct (slice20_map_Forall _ _ _ _ album_item_spec Ha0) as [H1 H2].
  auto.
Qed.

Lemma answers_impl (P Q : Server.MediaItem -> Prop) result :
  (forall it, P it -> Q it) -> answers P result -> answers Q result.
Proof.
  intros HPQ (sent & r & E & Hs & H). exists sent, r. split; [exact E|]. split; [exact Hs|].
  intros items Hb. destruct (H items Hb) as (H1 & H2 & H3). split; [exact H1|].
  split; [exact H2|]. eapply Forall_impl; [exact H3 | exact HPQ].
Qed.

Lemma handle_answers env req upstream :
  answers (fun _ => True) (Server.run upstream (Server.handle env req)).
Proof.
  unfold Server.handle. destruct (Server.find_route _ _) as [[]|].
  - eexists _, _. split; [reflexivity|]. split; [cbn; lia | discriminate].
  - eexists _, _. split; [reflexivity|]. split; [cbn; lia | discriminate].
  - eapply answers_impl; [|apply search_movies_answers]. auto.
  - eapply answers_impl; [|apply search_books_answers]. auto.
  - eapply answers_impl; [|apply search_albums_answers]. auto.
  - eexists _, _. split; [reflexivity|]. split; [cbn; lia | discriminate].
Qed.

(** X10: every request gets a response: no exception escapes a handler,
    whatever the configuration, the request and the upstream's answer. *)
Theorem every_request_answered env req upstream :
  exists sent r, Server.run upstream (Server.handle env req) = (sent, Normal r).
Proof.
  destruct (handle_answers env req upstream) as (sent & r & E & _). eauto.
Qed.

(** X11: handling a request sends at most one request upstream; nothing is
    retried. *)
Theorem at_most_one_upstream_request env req upstream :
  List.length (fst (Server.run upstream (Server.handle env req))) <= 1.
Proof.
  destruct (handle_answers env req upstream) as (sent & r & -> & Hs & _). exact Hs.
Qed.

(** X12: a response that carries items has status 200 and at most twenty
    items. *)
Theorem at_most_twenty_items env req upstream sent r items :
  Server.run upstream (Server.handle env req) = (sent, Normal r) ->
  Server.body r = Server.Items items ->
  Server.code r = 200 /\ List.length items <= 20.
Proof.
  intros E Hb. destruct (handle_answers env req upstream) as (sent' & r' & E' & _ & H).
  rewrite E in E'. injection E' as <- <-. destruct (H items Hb) as (H1 & H2 & _). auto.
Qed.

Lemma at_most_twenty_items_witness :
  Server.code (Server.json (Server.Items (repeat bare_movie 20))) = 200 /\
  List.length (repeat bare_movie 20) <= 20.
Proof.
  refine (at_most_twenty_items all_credentials (search_request "movies" "one")
            (answering 200 many_results)
            (fst (Server.run (answering 200 many_results)
                    (Server.handle all_credentials (search_request "movies" "one"))))
            (Server.json (Server.Items (repeat bare_movie 20)))
            (repeat bare_movie 20) _ eq_refl).
  vm_compute. reflexivity.
Defined.

(** X13: the items of a category's search all carry the favourite type
    that [mapCategoryToFavType] gives for that category, so an item from
    the result list is filed under the category it was searched in. *)
Theorem items_carry_favorite_type category env q upstream sent r items :
  In category ["movies"; "books"; "albums"] ->
  Server.run upstream
    (Server.handle env {| Server.path := Client.search_path category; Server.query_q := q |})
  = (sent, Normal r) ->
  Server.body r = Server.Items items ->
  Forall (fun it => Server.type it = Client.mapCategoryToFavType category) items.
Proof.
  intros Hc E Hb.
  assert (H : answers (fun it => Server.type it = Client.mapCategoryToFavType category)
                (Server.run upstream
                   (Server.handle env {| Server.path := Client.search_path category;
                                         Server.query_q := q |}))).
  { destruct Hc as [<-|[<-|[<-|[]]]]; unfold Server.handle; cbn [Server.path].
    - change (Server.find_route Server.routes (Client.search_path "movies"))
        with (Some Server.SearchMovies).
      apply search_movies_answers.
    - change (Server.find_route Server.routes (Client.search_path "books"))
        with (Some Server.SearchBooks).
      eapply answers_impl; [|apply search_books_answers]. intros it [H _]. exact H.
    - change (Server.find_route Server.routes (Client.search_path "albums"))
        with (Some Server.SearchAlbums).
      eapply answers_impl; [|apply search_albums_answers]. intros it [H _]. exact H. }
  destruct H as (sent' & r' & E' & _ & H). rewrite E in E'. injection E' as <- <-.
  now destruct (H items Hb) as (_ & _ & H3).
Qed.

Lemma items_carry_favorite_type_witness :
  Forall (fun it => Server.type it = Client.mapCategoryToFavType "movies")
    (repeat bare_movie 20).
Proof.
  refine (items_carry_favorite_type "movies" all_credentials (Some "one")
            (answering 200 many_results)
            (fst (Server.run (answering 200 many_results)
                    (Server.handle all_credentials (search_request "movies" "one"))))
            (Server.json (Server.Items (repeat bare_movie 20)))
            (repeat bare_movie 20)
            (or_introl eq_refl) _ eq_refl).
  vm_compute. reflexivity.
Defined.

(** X14: every item of a book or album response has a title, and one that
    is not empty: the upstream's, or [Untitled]. *)
Theorem book_and_album_items_titled env req upstream sent r items :
  Server.run upstream (Server.search_books env req) = (sent, Normal r) \/
  Server.run upstream (Server.search_albums env req) = (sent, Normal r) ->
  Server.body r = Server.Items items ->
  Forall titled items.
Proof.
  intros [E|E] Hb.
  - destruct (search_books_answers env req upstream) as (sent' & r' & E' & _ & H).
    rewrite E in E'. injection E' as <- <-. destruct (H items Hb) as (_ & _ & H3).
    eapply Forall_impl; [exact H3|]. now intros it [_ Ht].
  - destruct (search_albums_answers env req upstream) as (sent' & r' & E' & _ & H).
    rewrite E in E'. injection E' as <- <-. destruct (H items Hb) as (_ & _ & H3).
    eapply Forall_impl; [exact H3|]. now intros it [_ Ht].
Qed.

Lemma book_and_album_items_titled_witness : Forall titled [untitled_album].
Proof.
  refine (book_and_album_items_titled all_credentials (search_request "albums" "x")
            (answering 200 untitled_albums)
            (fst (Server.run (answering 200 untitled_albums)
                    (Server.search_albums all_credentials (search_request "albums" "x"))))
            (Server.json (Server.Items [untitled_album]))
            [untitled_album] (or_intror _) eq_refl).
  vm_compute. reflexivity.
Defined.

Lemma response_json_parsed r v :
  JSON.parse (Server.up_text r) = Some v -> Server.response_json r = Normal v.
Proof. unfold Server.response_json. intros ->. reflexivity. Qed.

Lemma response_json_unparsed r :
  JSON.parse (Server.up_text r) = None -> Server.response_json r = Throw SyntaxError.
Proof. unfold Server.response_json. intros ->. reflexivity. Qed.

Lemma or_else_falsy a b : truthy a = false -> or_else a b = b.
Proof. unfold or_else. destruct a as [v|]; [|reflexivity]. intros ->. reflexivity. Qed.

Ltac enter_handler :=
  repeat match goal with
  | H : Server.env_falsy ?env ?n = false |- context [Server.requireEnv ?env ?n] =>
      rewrite (requireEnv_set env n H)
  | H : Server.query_text ?req <> "" |- context [String.eqb (Server.query_text ?req) ""] =>
      rewrite (proj2 (String.eqb_neq _ _) H)
  end;
  unfold Server.fetch; cbn [Server.catch Server.run];
  repeat match goal with
  | H : forall rq, ?up rq = _ |- context [?up ?x] => rewrite (H x)
  end;
  cbn [Server.catch Server.run].

(** X15: an upstream body that is a JSON object with no result list (or an
    empty or otherwise falsy one) gives [{items: []}] with status 200, not
    an error; for albums when the upstream status is a success. *)
Theorem no_results_empty_list env req upstream r members :
  Server.query_text req <> "" ->
  (forall rq, upstream rq = Server.Resolved r) ->
  JSON.parse (Server.up_text r) = Some (JObj members) ->
  (Server.env_falsy env "TMDB_API_KEY" = false ->
   truthy (own members "results") = false ->
   snd (Server.run upstream (Server.search_movies env req)) = Normal no_items) /\
  (truthy (own members "items") = false ->
   snd (Server.run upstream (Server.search_books env req)) = Normal no_items) /\
  (Server.env_falsy env "DISCOGS_TOKEN" = false ->
   Server.env_falsy env "DISCOGS_USER_AGENT" = false ->
   Server.ok r = true ->
   truthy (own members "results") = false ->
   snd (Server.run upstream (Server.search_albums env req)) = Normal no_items).
Proof.
  intros Hq Hup Hp. split; [|split].
  - intros H1 Hr. unfold Server.search_movies. enter_handler.
    rewrite (response_json_parsed _ _ Hp). cbn [bind get].
    rewrite (or_else_falsy _ _ Hr). reflexivity.
  - intros Hr. unfold Server.search_books. enter_handler.
    rewrite (response_json_parsed _ _ Hp). cbn [bind get].
    rewrite (or_else_falsy _ _ Hr). reflexivity.
  - intros H1 H2 Hok Hr. unfold Server.search_albums. enter_handler.
    rewrite Hp, Hok. cbn [negb bind get]. rewrite (or_else_falsy _ _ Hr). reflexivity.
Qed.

Lemma no_results_empty_list_witness :
  snd (Server.run (answering 200 "{}")
         (Server.search_books ∅ (search_request "books" "zzzz"))) = Normal no_items.
Proof.
  refine (proj1 (proj2 (no_results_empty_list ∅ (search_request "books" "zzzz")
                          (answering 200 "{}")
                          {| Server.up_status := 200; Server.up_text := "{}" |} [] _ _ _)) _);
    try reflexivity.
  discriminate.
Defined.

(** X16: an upstream body that is not JSON makes the movie and book
    searches answer 500 with the parser's message, whatever the upstream
    status; the album search tolerates it and, on a success status,
    answers 200 with no items. *)
Theorem unparseable_body env req upstream r :
  Server.query_text req <> "" ->
  (forall rq, upstream rq = Server.Resolved r) ->
  JSON.parse (Server.up_text r) = None ->
  (Server.env_falsy env "TMDB_API_KEY" = false ->
   snd (Server.run upstream (Server.search_movies env req))
   = Normal (server_error SyntaxError)) /\
  snd (Server.run upstream (Server.search_books env req))
  = Normal (server_error SyntaxError) /\
  (Server.env_falsy env "DISCOGS_TOKEN" = false ->
   Server.env_falsy env "DISCOGS_USER_AGENT" = false ->
   Server.ok r = true ->
   snd (Server.run upstream (Server.search_albums env req)) = Normal no_items).
Proof.
  intros Hq Hup Hp. split; [|split].
  - intros H1. unfold Server.search_movies. enter_handler.
    rewrite (response_json_unparsed _ Hp). reflexivity.
  - unfold Server.search_books. enter_handler.
    rewrite (response_json_unparsed _ Hp). reflexivity.
  - intros H1 H2 Hok. unfold Server.search_albums. enter_handler.
    rewrite Hp, Hok. reflexivity.
Qed.

Lemma unparseable_body_witness :
  snd (Server.run (answering 200 "<html>")
         (Server.search_albums all_credentials (search_request "albums" "x")))
  = Normal no_items.
Proof.
  refine (proj2 (proj2 (unparseable_body all_credentials (search_request "albums" "x")
                          (answering 200 "<html>")
                          {| Server.up_status := 200; Server.up_text := "<html>" |} _ _ _))
            _ _ _);
    try reflexivity.
  discriminate.
Defined.

(** X17: when the request to the upstream fails without a response, each
    search answers 500 with the message of that failure, after exactly one
    attempt. *)
Theorem upstream_unreachable env req upstream :
  Server.query_text req <> "" ->
  (forall rq, upstream rq = Server.Rejected) ->
  (Server.env_falsy env "TMDB_API_KEY" = false ->
   exists rq, Server.run upstream (Server.search_movies env req)
              = ([rq], Normal (server_error FetchFailed))) /\
  (exists rq, Server.run upstream (Server.search_books env req)
              = ([rq], Normal (server_error FetchFailed))) /\
  (Server.env_falsy env "DISCOGS_TOKEN" = false ->
   Server.env_falsy env "DISCOGS_USER_AGENT" = false ->
   exists rq, Server.run upstream (Server.search_albums env req)
              = ([rq], Normal (server_error FetchFailed))).
Proof.
  intros Hq Hup. split; [|split].
  - intros H1. unfold Server.search_movies. enter_handler. eexists. reflexivity.
  - unfold Server.search_books. enter_handler. eexists. reflexivity.
  - intros H1 H2. unfold Server.search_albums. enter_handler. eexists. reflexivity.
Qed.

Lemma upstream_unreachable_witness :
  exists rq, Server.run (fun _ => Server.Rejected)
               (Server.search_books ∅ (search_request "books" "dune"))
             = ([rq], Normal (server_error FetchFailed)).
Proof.
  refine (proj1 (proj2 (upstream_unreachable ∅ (search_request "books" "dune")
                          (fun _ => Server.Rejected) _ _))); [discriminate | reflexivity].
Defined.

Lemma or_else_truthy v b : truthy (Some v) = true -> or_else (Some v) b = v.
Proof. unfold or_else. intros ->. reflexivity. Qed.

Lemma truthy_JStr s : s <> "" -> truthy (Some (JStr s)) = true.
Proof. intros H. cbn. now rewrite (proj2 (String.eqb_neq _ _) H). Qed.

(** X18: a movie's subtitle is the first four characters of its release
    date in parentheses, or empty when there is no release date; its image
    is the poster path appended to the w342 image address, or empty when
    there is no poster path. *)
Theorem movie_year_and_poster members it :
  Server.movie_item (JObj members) = Normal it ->
  (forall d, own members "release_date" = Some (JStr d) -> d <> "" ->
     Server.subtitle it = JStr ("(" +:+ String_slice0 4 d +:+ ")")) /\
  (truthy (own members "release_date") = false -> Server.subtitle it = JStr "") /\
  (forall p, own members "poster_path" = Some (JStr p) -> p <> "" ->
     Server.image it = JStr ("https://image.tmdb.org/t/p/w342" +:+ p)) /\
  (truthy (own members "poster_path") = false -> Server.image it = JStr "").
Proof.
  unfold Server.movie_item. cbn [get bind]. intros H.
  bind_inv H. bind_inv H. injection H as <-. cbn [Server.subtitle Server.image].
  split; [|split; [|split]].
  - intros d Hd Hne. rewrite Hd, (truthy_JStr d Hne) in Ha. now injection Ha as <-.
  - intros Hf. rewrite Hf in Ha. now injection Ha as <-.
  - intros p Hp Hne. rewrite Hp, (truthy_JStr p Hne) in Ha0. cbn in Ha0.
    now injection Ha0 as <-.
  - intros Hf. rewrite Hf in Ha0. now injection Ha0 as <-.
Qed.

Lemma movie_year_and_poster_witness :
  Server.subtitle batman_item = JStr ("(" +:+ String_slice0 4 "2022-03-04" +:+ ")").
Proof.
  refine (proj1 (movie_year_and_poster batman_record batman_item _) "2022-03-04" _ _);
    [reflexivity | reflexivity | discriminate].
Defined.

(** X19: an album's subtitle is its year in parentheses when it has one;
    without a year it is the first listed format, and empty when there is
    none. *)
Theorem album_year_before_format members it :
  Server.album_item (JObj members) = Normal it ->
  (forall n, own members "year" = Some (JNum n) -> n <> 0%Z ->
     Server.subtitle it = JStr ("(" +:+ Number_toString n +:+ ")")) /\
  (truthy (own members "year") = false ->
   forall f rest, own members "format" = Some (JArr (f :: rest)) ->
     truthy (Some f) = true -> Server.subtitle it = f) /\
  (truthy (own members "year") = false ->
   truthy (Server.first_of (own members "format")) = false ->
   Server.subtitle it = JStr "").
Proof.
  unfold Server.album_item. cbn [get bind]. intros H.
  bind_inv H. injection H as <-. cbn [Server.subtitle].
  split; [|split].
  - intros n Hn Hne. rewrite Hn in Ha. cbn in Ha.
    rewrite (proj2 (Z.eqb_neq n 0) Hne) in Ha. cbn in Ha. now injection Ha as <-.
  - intros Hy f rest Hf Ht. rewrite Hy, Hf in Ha. cbn [Server.first_of head] in Ha.
    injection Ha as <-. now apply or_else_truthy.
  - intros Hy Hf. rewrite Hy in Ha. injection Ha as <-. now apply or_else_falsy.
Qed.

Lemma album_year_before_format_witness :
  Server.subtitle discovery_item = JStr ("(" +:+ Number_toString 2001 +:+ ")").
Proof.
  refine (proj1 (album_year_before_format discovery_record discovery_item _) 2001%Z _ _);
    [reflexivity | reflexivity | discriminate].
Defined.

(** X20: a book's subtitle is its authors joined with a comma and a space,
    or empty without authors; its image is the thumbnail, and the small
    thumbnail only when there is no thumbnail. *)
Theorem book_authors_and_thumbnail members info it :
  own members "volumeInfo" = Some (JObj info) ->
  Server.book_item (JObj members) = Normal it ->
  (forall l s, own info "authors" = Some (JArr l) -> l <> [] ->
     Array_join ", " l = Normal s -> Server.subtitle it = JStr s) /\
  (truthy (Server.length_of (own info "authors")) = false ->
   Server.subtitle it = JStr "") /\
  (forall links t, own info "imageLinks" = Some (JObj links) ->
     own links "thumbnail" = Some t -> truthy (Some t) = true ->
     Server.image it = t) /\
  (forall links t, own info "imageLinks" = Some (JObj links) ->
     truthy (own links "thumbnail") = false ->
     own links "smallThumbnail" = Some t -> truthy (Some t) = true ->
     Server.image it = t).
Proof.
  intros Hv H. unfold Server.book_item in H. cbn [get bind] in H. rewrite Hv in H.
  cbn [or_else truthy get bind] in H.
  bind_inv H. injection H as <-. cbn [Server.subtitle Server.image].
  split; [|split; [|split]].
  - intros l s Hl Hne Hj. rewrite Hl in Ha. cbn [Server.length_of truthy] in Ha.
    destruct l as [|x l]; [congruence|]. cbn [List.length] in Ha.
    replace (negb (Z.of_nat (S (List.length l)) =? 0)%Z) with true in Ha
      by (symmetry; apply negb_true_iff, Z.eqb_neq; lia).
    rewrite Hj in Ha. now injection Ha as <-.
  - intros Hf. rewrite Hf in Ha. now injection Ha as <-.
  - intros links t Hl Ht Htt. rewrite Hl. cbn [get_chain]. rewrite Ht.
    unfold or_opt. rewrite Htt. now apply or_else_truthy.
  - intros links t Hl Hf Ht Htt. rewrite Hl. cbn [get_chain].
    unfold or_opt. rewrite Hf, Ht. now apply or_else_truthy.
Qed.

Lemma book_authors_and_thumbnail_witness :
  Server.subtitle dune_item = JStr "Frank Herbert, Brian Herbert".
Proof.
  refine (proj1 (book_authors_and_thumbnail dune_record _ dune_item eq_refl eq_refl)
            [JStr "Frank Herbert"; JStr "Brian Herbert"] _ eq_refl _ eq_refl).
  discriminate.
Defined.

Lemma run_lift_sent upstream (c : completion Server.Response) :
  fst (Server.run upstream (Server.catch (Server.lift c) Server.internal_error)) = [].
Proof. destruct c; reflexivity. Qed.

(** X21: the book search needs no credential: with a non-empty query it
    sends one request to the volumes address with the trimmed query and
    [maxResults=20], and the [key] parameter exactly when
    GOOGLE_BOOKS_API_KEY is set and not empty. *)
Theorem book_key_is_optional env req upstream :
  Server.query_text req <> "" ->
  exists rq,
    fst (Server.run upstream (Server.search_books env req)) = [rq] /\
    Server.url rq = "https://www.googleapis.com/books/v1/volumes" /\
    Server.headers rq = [] /\
    Server.searchParams rq
    = [("q", Server.query_text req); ("maxResults", "20")]
      ++ match env !! "GOOGLE_BOOKS_API_KEY" with
         | Some k => if String.eqb k "" then [] else [("key", k)]
         | None => []
         end.
Proof.
  intros Hq. unfold Server.search_books.
  rewrite (proj2 (String.eqb_neq _ _) Hq).
  unfold Server.fetch. cbn [Server.catch Server.run].
  match goal with |- context [upstream ?rq] => destruct (upstream rq) as [|r] end;
    cbn [Server.catch Server.run Server.internal_error];
    [|match goal with |- context [Server.run upstream ?p] =>
        pose proof (run_lift_sent upstream
                      (let! data := Server.response_json r in
                       let! items := get data "items" in
                       let! items := Server.slice20_map Server.book_item
                                       (or_else items (JArr [])) in
                       Normal (Server.json (Server.Items items)))) as Hs;
        destruct (Server.run upstream p) as [l c]; cbn [fst] in Hs; subst l
      end];
    (eexists; split; [reflexivity|]).
  all: unfold Server.env_falsy, Server.env_text.
  all: destruct (env !! "GOOGLE_BOOKS_API_KEY") as [k|]; [|repeat split].
  all: destruct (String.eqb k ""); repeat split.
Qed.

Lemma book_key_is_optional_witness :
  exists rq,
    fst (Server.run (answering 200 "{}")
           (Server.search_books ∅ (search_request "books" " dune "))) = [rq] /\
    Server.url rq = "https://www.googleapis.com/books/v1/volumes" /\
    Server.headers rq = [] /\
    Server.searchParams rq
    = [("q", Server.query_text (search_request "books" " dune ")); ("maxResults", "20")]
      ++ match (∅ : gmap string string) !! "GOOGLE_BOOKS_API_KEY" with
         | Some k => if String.eqb k "" then [] else [("key", k)]
         | None => []
         end.
Proof.
  apply (book_key_is_optional ∅ (search_request "books" " dune ") (answering 200 "{}")).
  discriminate.
Defined.

Lemma Array_map_raw (f : value -> completion Server.MediaItem) l r :
  (forall x y, f x = Normal y -> Server.raw y = x) ->
  Server.Array_map f l = Normal r -> map Server.raw r = l.
Proof.
  intros Hf. revert r. induction l as [|x l IH]; cbn [Server.Array_map]; intros r H.
  - now injection H as <-.
  - bind_inv H. bind_inv H. injection H as <-. cbn [map].
    now rewrite (Hf _ _ Ha), (IH _ Ha0).
Qed.

Lemma movie_item_raw m it : Server.movie_item m = Normal it -> Server.raw it = m.
Proof.
  unfold Server.movie_item. intros H. repeat bind_inv H. now injection H as <-.
Qed.

Lemma book_item_raw b it : Server.book_item b = Normal it -> Server.raw it = b.
Proof.
  unfold Server.book_item. intros H. repeat bind_inv H. now injection H as <-.
Qed.

Lemma album_item_raw a it : Server.album_item a = Normal it -> Server.raw it = a.
Proof.
  unfold Server.album_item. intros H. repeat bind_inv H. now injection H as <-.
Qed.

Lemma lifted_items upstream (c : completion (list Server.MediaItem)) sent resp items :
  Server.run upstream
    (Server.catch
       (Server.lift (let! l := c in Normal (Server.json (Server.Items l))))
       Server.internal_error) = (sent, Normal resp) ->
  Server.body resp = Server.Items items -> c = Normal items.
Proof.
  destruct c as [l|e]; cbn; intros E Hb; injection E as _ <-.
  - cbn in Hb. now injection Hb as ->.
  - discriminate Hb.
Qed.

(** X22: the items of a response are the upstream's records in the
    upstream's order, cut after the twentieth: the records kept in the
    items' [raw] are the first twenty of the result list. *)
Theorem first_twenty_in_order env req upstream r members l sent resp items :
  (forall rq, upstream rq = Server.Resolved r) ->
  JSON.parse (Server.up_text r) = Some (JObj members) ->
  (own members "results" = Some (JArr l) /\
   (Server.run upstream (Server.search_movies env req) = (sent, Normal resp) \/
    Server.run upstream (Server.search_albums env req) = (sent, Normal resp))) \/
  (own members "items" = Some (JArr l) /\
   Server.run upstream (Server.search_books env req) = (sent, Normal resp)) ->
  Server.body resp = Server.Items items ->
  map Server.raw items = firstn 20 l.
Proof.
  intros Hup Hp Hcase Hb.
  destruct Hcase as [[Hl [E|E]] | [Hl E]].
  - unfold Server.search_movies in E.
    destruct (Server.requireEnv env "TMDB_API_KEY") as [[]|e];
      [|cbn in E; injection E as _ <-; discriminate Hb].
    destruct (String.eqb (Server.query_text req) "");
      [cbn in E; injection E as _ <-; discriminate Hb|].
    unfold Server.fetch in E. cbn [Server.catch Server.run] in E. rewrite Hup in E.
    rewrite (response_json_parsed _ _ Hp) in E. cbn [bind get] in E. rewrite Hl in E.
    cbn [or_else truthy] in E.
    match type of E with
    | (let (_, _) := ?R in _) = _ => destruct R as [sent' res] eqn:ER
    end.
    injection E as _ ->.
    apply (lifted_items _ _ _ _ _ ER) in Hb.
    exact (Array_map_raw _ _ _ movie_item_raw Hb).
  - unfold Server.search_albums in E.
    destruct (Server.requireEnv env "DISCOGS_TOKEN") as [[]|e];
      [|cbn in E; injection E as _ <-; discriminate Hb].
    destruct (Server.requireEnv env "DISCOGS_USER_AGENT") as [[]|e];
      [|cbn in E; injection E as _ <-; discriminate Hb].
    destruct (String.eqb (Server.query_text req) "");
      [cbn in E; injection E as _ <-; discriminate Hb|].
    unfold Server.fetch in E. cbn [Server.catch Server.run] in E. rewrite Hup, Hp in E.
    destruct (Server.ok r); cbn [negb] in E;
      [|cbn in E; injection E as _ <-; discriminate Hb].
    cbn [bind get] in E. rewrite Hl in E. cbn [or_else truthy] in E.
    match type of E with
    | (let (_, _) := ?R in _) = _ => destruct R as [sent' res] eqn:ER
    end.
    injection E as _ ->.
    apply (lifted_items _ _ _ _ _ ER) in Hb.
    exact (Array_map_raw _ _ _ album_item_raw Hb).
  - unfold Server.search_books in E.
    destruct (String.eqb (Server.query_text req) "");
      [cbn in E; injection E as _ <-; discriminate Hb|].
    unfold Server.fetch in E. cbn [Server.catch Server.run] in E. rewrite Hup in E.
    rewrite (response_json_parsed _ _ Hp) in E. cbn [bind get] in E. rewrite Hl in E.
    cbn [or_else truthy] in E.
    match type of E with
    | (let (_, _) := ?R in _) = _ => destruct R as [sent' res] eqn:ER
    end.
    injection E as _ ->.
    apply (lifted_items _ _ _ _ _ ER) in Hb.
    exact (Array_map_raw _ _ _ book_item_raw Hb).
Qed.

Lemma first_twenty_in_order_witness :
  map Server.raw (repeat bare_movie 20) = firstn 20 (repeat (JObj [("id", JNum 1)]) 25).
Proof.
  refine (first_twenty_in_order all_credentials (search_request "movies" "one")
            (answering 200 many_results)
            {| Server.up_status := 200; Server.up_text := many_results |}
            [("results", JArr (repeat (JObj [("id", JNum 1)]) 25))]
            (repeat (JObj [("id", JNum 1)]) 25)
            (fst (Server.run (answering 200 many_results)
                    (Server.search_movies all_credentials (search_request "movies" "one"))))
            (Server.json (Server.Items (repeat bare_movie 20)))
            (repeat bare_movie 20) (fun _ => eq_refl) _ (or_introl (conj eq_refl (or_introl _)))
            eq_refl).
  - exact (parse_stringify (JObj [("results", JArr (repeat (JObj [("id", JNum 1)]) 25))])).
  - vm_compute. reflexivity.
Defined.

Lemma Array_some_total f l :
  Forall (fun y => exists b, f y = Normal b) l -> exists b, Client.Array_some f l = Normal b.
Proof.
  induction 1 as [|y l [b Hy] _ [b' IH]]; cbn [Client.Array_some]; [eauto|].
  rewrite Hy. cbn [bind]. destruct b; eauto.
Qed.

(** X23: on well-formed data (the item's type names a category, its id and
    the ids of the category's entries convert to strings) [addFavorite]
    always returns, with one of three outcomes: it reports a duplicate or a
    full category and leaves the storage as it was, or it reports the add
    and the category read back ends with the item. *)
Theorem add_outcomes p item key s l :
  Client.type_key item = Normal key ->
  Client.id_text item = Normal s ->
  Client.index (Client.loadFavorites (Client.localStorage p)) key = Some l ->
  Forall (fun y => exists t, Client.id_text y = Normal t) l ->
  exists p',
    Client.addFavorite item p = Normal p' /\
    ((Client.status p' = "Already in favorites." /\
      Client.localStorage p' = Client.localStorage p) \/
     (Client.status p' = "You already have 5 " +:+ key +:+ "s. Remove one first." /\
      Client.localStorage p' = Client.localStorage p) \/
     (Client.status p' = "Added to " +:+ key +:+ " favorites." /\
      Client.index (Client.loadFavorites (Client.localStorage p')) key = Some (l ++ [item]))).
Proof.
  intros Hk Hid Hi Hl. unfold Client.addFavorite. rewrite Hk. cbn [bind]. rewrite Hi.
  destruct (Array_some_total (Client.same_id (Client.id_text item)) l) as [dup Hd].
  { eapply Forall_impl; [exact Hl|]. intros y [t Ht].
    unfold Client.same_id. rewrite Ht, Hid. cbn [bind]. eauto. }
  rewrite Hd. cbn [bind]. destruct dup; [eexists; split; [reflexivity|]; left; auto|].
  destruct (5 <=? List.length l); [eexists; split; [reflexivity|]; right; left; auto|].
  eexists. split; [reflexivity|]. right. right. split; [reflexivity|].
  cbn [Client.setStatus Client.localStorage].
  rewrite loadFavorites_saveFavorites. exact (index_assign _ _ _ _ Hi).
Qed.

Lemma add_outcomes_witness :
  exists p',
    Client.addFavorite (sample_item "book" "6") five_books = Normal p' /\
    ((Client.status p' = "Already in favorites." /\
      Client.localStorage p' = Client.localStorage five_books) \/
     (Client.status p' = "You already have 5 " +:+ "book" +:+ "s. Remove one first." /\
      Client.localStorage p' = Client.localStorage five_books) \/
     (Client.status p' = "Added to " +:+ "book" +:+ " favorites." /\
      Client.index (Client.loadFavorites (Client.localStorage p')) "book"
      = Some (map (sample_item "book") ["1"; "2"; "3"; "4"; "5"] ++ [sample_item "book" "6"]))).
Proof.
  refine (add_outcomes five_books (sample_item "book" "6") "book" "6"
            (map (sample_item "book") ["1"; "2"; "3"; "4"; "5"]) eq_refl eq_refl _ _).
  - vm_compute. reflexivity.
  - repeat constructor; eexists; reflexivity.
Defined.

(** X24: after the clear button, whatever came before, all three
    categories are empty; and clearing twice is the same as clearing
    once. *)
Theorem clear_empties p actions :
  Client.loadFavorites
    (Client.localStorage (Client.run p (actions ++ [Client.Clear]))) = Client.no_favorites /\
  Client.run p (actions ++ [Client.Clear; Client.Clear])
  = Client.run p (actions ++ [Client.Clear]).
Proof.
  unfold Client.run. rewrite !fold_left_app. cbn [fold_left Client.step].
  generalize (fold_left Client.step actions p). intros q. split.
  - unfold Client.clearFavorites, Client.loadFavorites. cbn [Client.localStorage].
    now rewrite lookup_delete_eq.
  - unfold Client.clearFavorites. cbn [Client.localStorage Client.status].
    now rewrite delete_delete_eq.
Qed.
